(** * watsonwork-yelp: the conversation flow of [app.js] and the search client
    of [yelp.js], embedded as Rocq functions.

    Conventions of the embedding.
    - A JavaScript string is a [string]: the sequence of its UTF-8 bytes.  Every
      character the program inspects (the letters of the confirmation pattern,
      the characters JSON escapes) is ASCII, and no byte of a multi-byte
      sequence is one.
    - [inMemoryState], a JavaScript object used as a dictionary, is a
      [gmap string Entry]; a space id is taken to be a key of the dictionary
      itself, not the name of a member of [Object.prototype].
    - [request(options, callback)] is a pending [task]: the options of the HTTP
      call and the callback, a function of the reply and of the dictionary as it
      is when the reply arrives. *)

From Stdlib Require Import ZArith Ascii String List Bool Lia.
From stdpp Require Import gmap strings list pretty.

Local Open Scope Z_scope.

(** ** Strings *)

(** The line feed, written [\n] in the source. *)
Definition LF : string := String "010"%char EmptyString.

(** The double quote. *)
Definition DQUOTE : ascii := "034"%char.

(** JavaScript truthiness of a string: only the empty string is falsy. *)
Definition truthy_string (s : string) : bool :=
  match s with
  | EmptyString => false
  | String _ _ => true
  end.

(** ** Regular expressions: the fragment [CONFIRMATION_REGEX] is written in *)

Inductive regex : Type :=
  | Char (c : ascii)
  | Seq (r1 r2 : regex)
  | Alt (r1 r2 : regex)
  | Opt (r : regex)
  | Group (r : regex).

(** [Canonicalize] under the [i] flag (without [u]): a character is compared by
    its upper-case form; a character outside ASCII never folds into ASCII. *)
Definition Canonicalize (c : ascii) : ascii :=
  let n := nat_of_ascii c in
  if ((97 <=? n) && (n <=? 122))%nat then ascii_of_nat (n - 32) else c.

Definition same_char (ignoreCase : bool) (a b : ascii) : bool :=
  if ignoreCase
  then Ascii.eqb (Canonicalize a) (Canonicalize b)
  else Ascii.eqb a b.

(** The backtracking matcher of the language specification: [matcher r s k]
    matches [r] at the start of [s] and hands the rest of the input to the
    continuation [k]; alternatives are tried left to right and [?] is greedy. *)
Fixpoint matcher (ignoreCase : bool) (r : regex) (s : string)
    (k : string -> bool) : bool :=
  match r with
  | Char c =>
      match s with
      | EmptyString => false
      | String x s' => same_char ignoreCase x c && k s'
      end
  | Seq r1 r2 => matcher ignoreCase r1 s (fun s' => matcher ignoreCase r2 s' k)
  | Alt r1 r2 => matcher ignoreCase r1 s k || matcher ignoreCase r2 s k
  | Opt r1 => matcher ignoreCase r1 s k || k s
  | Group r1 => matcher ignoreCase r1 s k
  end.

(** A regular expression literal: its pattern and its [i] flag. *)
Record RegExp : Type := { pattern : regex; ignoreCase_flag : bool }.

(** [RegExp.prototype.exec] without the [g] or [y] flag: the match is tried at
    every index from 0 on; the result says whether one was found. *)
Fixpoint RegExp_exec (re : RegExp) (s : string) : bool :=
  matcher (ignoreCase_flag re) (pattern re) s (fun _ => true)
  || match s with
     | EmptyString => false
     | String _ s' => RegExp_exec re s'
     end.

(** [content.match(re)] is [null] (falsy) when nothing matches and an array
    (truthy) otherwise; the program only tests that. *)
Definition String_match (content : string) (re : RegExp) : bool :=
  RegExp_exec re content.

(** [const CONFIRMATION_REGEX = /((o)?k|y(es)?)/i] *)
Definition CONFIRMATION_REGEX : RegExp :=
  {| pattern :=
       Group (Alt (Seq (Opt (Group (Char "o"))) (Char "k"))
                  (Seq (Char "y") (Opt (Group (Seq (Char "e") (Char "s"))))));
     ignoreCase_flag := true |}.

(** The letters that decide the pattern: k, K, y, Y. *)
Definition is_k_or_y (c : ascii) : bool :=
  Ascii.eqb (Canonicalize c) "K" || Ascii.eqb (Canonicalize c) "Y".

Fixpoint has_k_or_y (s : string) : bool :=
  match s with
  | EmptyString => false
  | String c s' => is_k_or_y c || has_k_or_y s'
  end.

Example confirm_yes : String_match "yes" CONFIRMATION_REGEX = true.
Proof. reflexivity. Qed.
Example confirm_Ok : String_match "Ok" CONFIRMATION_REGEX = true.
Proof. reflexivity. Qed.
Example confirm_y : String_match "y" CONFIRMATION_REGEX = true.
Proof. reflexivity. Qed.
Example confirm_no : String_match "no" CONFIRMATION_REGEX = false.
Proof. reflexivity. Qed.
Example confirm_maybe : String_match "maybe" CONFIRMATION_REGEX = true.
Proof. reflexivity. Qed.
Example confirm_no_thanks : String_match "no thanks" CONFIRMATION_REGEX = true.
Proof. reflexivity. Qed.

(** At one index the pattern succeeds exactly when the input starts with
    k, y or ok, in any case. *)
Lemma matcher_confirmation c s :
  matcher true (pattern CONFIRMATION_REGEX) (String c s) (fun _ => true)
  = (Ascii.eqb (Canonicalize c) "O"
       && match s with
          | EmptyString => false
          | String d _ => Ascii.eqb (Canonicalize d) "K"
          end)
    || is_k_or_y c.
Proof.
  cbn [matcher pattern CONFIRMATION_REGEX same_char].
  change (Canonicalize "o") with "O"%char.
  change (Canonicalize "k") with "K"%char.
  change (Canonicalize "y") with "Y"%char.
  unfold is_k_or_y.
  destruct (Ascii.eqb (Canonicalize c) "O") eqn:HO;
    destruct (Ascii.eqb (Canonicalize c) "K") eqn:HK;
    destruct (Ascii.eqb (Canonicalize c) "Y") eqn:HY;
    destruct s as [|d s']; cbn;
    rewrite ?andb_true_r, ?andb_false_r, ?orb_true_r, ?orb_false_r;
    try reflexivity;
    destruct (Ascii.eqb (Canonicalize d) "K"); reflexivity.
Qed.

(** The unanchored search finds the pattern exactly in the strings that
    contain a k or a y, in either case. *)
Lemma confirmation_search s :
  String_match s CONFIRMATION_REGEX = has_k_or_y s.
Proof.
  unfold String_match.
  induction s as [|c s IH]; [reflexivity|].
  cbn [RegExp_exec has_k_or_y ignoreCase_flag CONFIRMATION_REGEX].
  change (matcher true _ (String c s) _)
    with (matcher true (pattern CONFIRMATION_REGEX) (String c s) (fun _ => true)).
  rewrite matcher_confirmation.
  fold CONFIRMATION_REGEX. rewrite IH.
  destruct (is_k_or_y c); [now rewrite orb_true_r|].
  rewrite orb_false_r.
  destruct (Ascii.eqb (Canonicalize c) "O"); [|reflexivity].
  destruct s as [|d s']; [reflexivity|].
  cbn [andb has_k_or_y]. unfold is_k_or_y.
  destruct (Ascii.eqb (Canonicalize d) "K"); reflexivity.
Qed.

(** The pattern matched against the whole content, as [^(...)$] would be: the
    match starts at index 0 and the continuation accepts only the end of the
    input. *)
Definition at_end (s : string) : bool :=
  match s with
  | EmptyString => true
  | String _ _ => false
  end.

Definition RegExp_full_match (re : RegExp) (s : string) : bool :=
  matcher (ignoreCase_flag re) (pattern re) s at_end.

Fixpoint uppercase (s : string) : string :=
  match s with
  | EmptyString => EmptyString
  | String c s' => String (Canonicalize c) (uppercase s')
  end.

Example full_match_yes : RegExp_full_match CONFIRMATION_REGEX "Yes" = true.
Proof. reflexivity. Qed.
Example full_match_maybe : RegExp_full_match CONFIRMATION_REGEX "maybe" = false.
Proof. reflexivity. Qed.

(** A match stays one under a continuation that accepts more. *)
Lemma matcher_mono i r : forall s (k k' : string -> bool),
  (forall t, k t = true -> k' t = true) ->
  matcher i r s k = true -> matcher i r s k' = true.
Proof.
  induction r as [c|r1 IH1 r2 IH2|r1 IH1 r2 IH2|r IH|r IH];
    intros s k k' Hk; cbn [matcher].
  - destruct s as [|x s']; [done|].
    rewrite !andb_true_iff. intros [? ?]. split; [done|by apply Hk].
  - apply IH1. intros t. by apply IH2.
  - rewrite !orb_true_iff. intros [H|H]; [left; by eapply IH1|right; by eapply IH2].
  - rewrite !orb_true_iff. intros [H|H]; [left; by eapply IH|right; by apply Hk].
  - by apply IH.
Qed.

(** What matches in full is found by the search. *)
Lemma full_match_search re s :
  RegExp_full_match re s = true -> String_match s re = true.
Proof.
  unfold RegExp_full_match, String_match. intros H.
  destruct s as [|c s]; cbn [RegExp_exec]; apply orb_true_iff; left;
    by eapply matcher_mono, H.
Qed.

(** The contents the pattern matches in full: k, ok, y and yes, in any
    case. *)
Lemma full_match_words s :
  RegExp_full_match CONFIRMATION_REGEX s = true
  <-> uppercase s = "K" \/ uppercase s = "OK"
      \/ uppercase s = "Y" \/ uppercase s = "YES".
Proof.
  unfold RegExp_full_match.
  cbn [matcher pattern ignoreCase_flag CONFIRMATION_REGEX same_char].
  change (Canonicalize "o") with "O"%char.
  change (Canonicalize "k") with "K"%char.
  change (Canonicalize "y") with "Y"%char.
  change (Canonicalize "e") with "E"%char.
  change (Canonicalize "s") with "S"%char.
  destruct s as [|a [|b [|c [|d s]]]]; cbn [uppercase at_end];
    repeat match goal with
           | |- context [Ascii.eqb (Canonicalize ?x) ?y] =>
               destruct (Ascii.eqb_spec (Canonicalize x) y)
           end;
    cbn; split; intros H; try discriminate H;
    try (destruct H as [H|[H|[H|H]]]; congruence);
    intuition congruence.
Qed.

(** ** [JSON.stringify] of the verification body *)

Definition hex_digit (n : Z) : ascii :=
  match String.get (Z.to_nat n) "0123456789abcdef" with
  | Some c => c
  | None => "0"%char
  end.

(** Two lower-case hexadecimal digits of a byte. *)
Definition hex_byte (b : Z) : string :=
  String (hex_digit (b / 16)) (String (hex_digit (b mod 16)) EmptyString).

Definition code (c : ascii) : Z := Z.of_nat (nat_of_ascii c).

(** One character of [QuoteJSONString]: the two-character escapes, [\u00xx]
    for the other control characters, the character itself otherwise. *)
Definition json_escape (c : ascii) : string :=
  let n := code c in
  if n =? 8 then "\b"
  else if n =? 9 then "\t"
  else if n =? 10 then "\n"
  else if n =? 12 then "\f"
  else if n =? 13 then "\r"
  else if n =? 34 then String "\" (String DQUOTE EmptyString)
  else if n =? 92 then "\\"
  else if n <? 32 then "\u00" +:+ hex_byte n
  else String c EmptyString.

Fixpoint json_escape_all (s : string) : string :=
  match s with
  | EmptyString => EmptyString
  | String c s' => json_escape c +:+ json_escape_all s'
  end.

Definition QuoteJSONString (s : string) : string :=
  String DQUOTE (json_escape_all s +:+ String DQUOTE EmptyString).

(** [bodyToSend], the object literal [{ response: req.body.challenge }]. *)
Record VerificationBody : Type := { response : string }.

(** [JSON.stringify] of an object with the one string property [response]. *)
Definition JSON_stringify (b : VerificationBody) : string :=
  "{" +:+ QuoteJSONString "response" +:+ ":" +:+ QuoteJSONString (response b) +:+ "}".

(** ** SHA-256 and HMAC, as [crypto.createHmac('sha256', key)] computes them *)

Module SHA256.

Definition w32 : Z := 2 ^ 32.
Definition add32 (x y : Z) : Z := (x + y) mod w32.
Definition ROTR (n x : Z) : Z :=
  Z.lor (Z.shiftr x n) (Z.shiftl x (32 - n) mod w32).
Definition SHR (n x : Z) : Z := Z.shiftr x n.
Definition not32 (x : Z) : Z := Z.lxor x (w32 - 1).

Definition Ch (x y z : Z) : Z := Z.lxor (Z.land x y) (Z.land (not32 x) z).
Definition Maj (x y z : Z) : Z :=
  Z.lxor (Z.lxor (Z.land x y) (Z.land x z)) (Z.land y z).
Definition Sigma0 (x : Z) : Z := Z.lxor (Z.lxor (ROTR 2 x) (ROTR 13 x)) (ROTR 22 x).
Definition Sigma1 (x : Z) : Z := Z.lxor (Z.lxor (ROTR 6 x) (ROTR 11 x)) (ROTR 25 x).
Definition sigma0 (x : Z) : Z := Z.lxor (Z.lxor (ROTR 7 x) (ROTR 18 x)) (SHR 3 x).
Definition sigma1 (x : Z) : Z := Z.lxor (Z.lxor (ROTR 17 x) (ROTR 19 x)) (SHR 10 x).

(** The first 64 primes: the primes up to 311. *)
Definition is_prime (n : Z) : bool :=
  forallb (fun d => negb (n mod d =? 0))
          (map Z.of_nat (seq 2 (Z.to_nat n - 2))).
Definition primes : list Z :=
  Eval vm_compute in filter is_prime (map Z.of_nat (seq 2 310)).

(** The largest [r] below [2 ^ bits] above [acc] with [r ^ 3 <= n]. *)
Fixpoint cube_root_from (bits : nat) (acc n : Z) : Z :=
  match bits with
  | O => acc
  | S b =>
      let r := acc + 2 ^ Z.of_nat b in
      if r * r * r <=? n then cube_root_from b r n else cube_root_from b acc n
  end.

(** The round constants: 32 bits of the fractional part of the cube root of
    each prime; the initial hash value: of the square root of the first 8. *)
Definition K : list Z :=
  Eval vm_compute in
    map (fun p => cube_root_from 36 0 (p * 2 ^ 96) mod w32) primes.
Definition H0 : list Z :=
  Eval vm_compute in map (fun p => Z.sqrt (p * 2 ^ 64) mod w32) (firstn 8 primes).

(** Padding: a 1 bit, zeros, and the bit length in 64 bits, to a multiple of
    64 bytes. *)
Definition be_bytes (n : nat) (x : Z) : list Z :=
  map (fun i => Z.shiftr x (8 * Z.of_nat i) mod 256) (rev (seq 0 n)).
Definition pad (msg : list Z) : list Z :=
  let len := Z.of_nat (length msg) in
  msg ++ 128 :: repeat 0 (Z.to_nat ((55 - len) mod 64)) ++ be_bytes 8 (8 * len).

Definition be_word (bs : list Z) : Z :=
  fold_left (fun acc b => acc * 256 + b) bs 0.

(** The input cut in pieces of [n] elements. *)
Fixpoint chunks {A} (fuel n : nat) (l : list A) : list (list A) :=
  match fuel, l with
  | O, _ | _, [] => []
  | S f, _ => firstn n l :: chunks f n (skipn n l)
  end.

(** The message schedule: 16 words of the block, extended to 64. *)
Fixpoint schedule (more : nat) (W : list Z) : list Z :=
  match more with
  | O => W
  | S m =>
      let t := length W in
      let at_ (back : nat) := nth (t - back) W 0 in
      schedule m
        (W ++ [add32 (add32 (sigma1 (at_ 2%nat)) (at_ 7%nat))
                     (add32 (sigma0 (at_ 15%nat)) (at_ 16%nat))])
  end.

Definition round (v : list Z) (kw : Z * Z) : list Z :=
  match v with
  | [a; b; c; d; e; f; g; h] =>
      let T1 := add32 (add32 (add32 h (Sigma1 e)) (add32 (Ch e f g) kw.1)) kw.2 in
      let T2 := add32 (Sigma0 a) (Maj a b c) in
      [add32 T1 T2; a; b; c; add32 d T1; e; f; g]
  | _ => v
  end.

Definition compress (H : list Z) (block : list Z) : list Z :=
  let W := schedule 48 (map be_word (chunks 16 4 block)) in
  zip_with add32 H (fold_left round (zip K W) H).

Definition sha256 (msg : list Z) : list Z :=
  let p := pad msg in
  flat_map (be_bytes 4) (fold_left compress (chunks (length p) 64 p) H0).

Definition xor_pad (c : Z) (key : list Z) : list Z := map (Z.lxor c) key.

(** HMAC (RFC 2104) with block size 64: a longer key is hashed first. *)
Definition hmac (key msg : list Z) : list Z :=
  let k0 := if (64 <? length key)%nat then sha256 key else key in
  let k := k0 ++ repeat 0 (64 - length k0) in
  sha256 (xor_pad 92 k ++ sha256 (xor_pad 54 k ++ msg)).

End SHA256.

Definition bytes_of (s : string) : list Z := map code (list_ascii_of_string s).

(** The [digest('hex')] encoding. *)
Definition hex (bs : list Z) : string :=
  fold_right (fun b acc => hex_byte b +:+ acc) EmptyString bs.

(** [crypto.createHmac('sha256', key).update(data).digest('hex')] *)
Definition createHmac_sha256_hex (key data : string) : string :=
  hex (SHA256.hmac (bytes_of key) (bytes_of data)).

Example sha256_abc :
  hex (SHA256.sha256 (bytes_of "abc"))
  = "ba7816bf8f01cfea414140de5dae2223b00361a396177a9cb410ff61f20015ad".
Proof. vm_compute. reflexivity. Qed.

Example sha256_empty :
  hex (SHA256.sha256 [])
  = "e3b0c44298fc1c149afbf4c8996fb92427ae41e4649b934ca495991b7852b855".
Proof. vm_compute. reflexivity. Qed.

Example hmac_sha256_fox :
  createHmac_sha256_hex "key" "The quick brown fox jumps over the lazy dog"
  = "f7bc83f430538424b13298e6aa6fb143ef4d59a14946175997479dbc2d1a3cd8".
Proof. vm_compute. reflexivity. Qed.

(** The digest has 32 bytes, so the token has 64 hexadecimal digits. *)
Lemma round_length v kw : length v = 8%nat -> length (SHA256.round v kw) = 8%nat.
Proof.
  intros H. do 9 (destruct v as [|? v]; try discriminate H). reflexivity.
Qed.

Lemma rounds_length l v :
  length v = 8%nat -> length (fold_left SHA256.round l v) = 8%nat.
Proof.
  revert v. induction l as [|kw l IH]; intros v H; [done|].
  cbn [fold_left]. by apply IH, round_length.
Qed.

Lemma compress_length H block :
  length H = 8%nat -> length (SHA256.compress H block) = 8%nat.
Proof.
  intros HH. unfold SHA256.compress.
  rewrite length_zip_with, rounds_length by done. lia.
Qed.

Lemma sha256_length msg : length (SHA256.sha256 msg) = 32%nat.
Proof.
  unfold SHA256.sha256.
  rewrite (flat_map_constant_length (c := 4)).
  - assert (Hlen : forall blocks H, length H = 8%nat ->
                     length (fold_left SHA256.compress blocks H) = 8%nat).
    { induction blocks as [|b blocks IH]; intros H HH; [done|].
      cbn [fold_left]. by apply IH, compress_length. }
    by rewrite Hlen.
  - intros x _. reflexivity.
Qed.

Lemma hex_length bs : String.length (hex bs) = (2 * length bs)%nat.
Proof.
  induction bs as [|b bs IH]; [reflexivity|].
  change (String.length (hex (b :: bs)))
    with (S (S (String.length (hex bs)))).
  rewrite IH. cbn [length]. lia.
Qed.

Lemma createHmac_sha256_hex_length key data :
  String.length (createHmac_sha256_hex key data) = 64%nat.
Proof.
  unfold createHmac_sha256_hex, SHA256.hmac.
  by rewrite hex_length, sha256_length.
Qed.

(** ** Data *)

(** One entry of [inMemoryState]: [{ state: 1, zip: '' }]. *)
Record Entry : Type := { state : Z; zip : string }.

(** [entry.state = s] and [entry.zip = z]: the entry is changed in place. *)
Definition set_state (s : Z) (entry : Entry) : Entry :=
  {| state := s; zip := zip entry |}.
Definition set_zip (z : string) (entry : Entry) : Entry :=
  {| state := state entry; zip := z |}.

(** [let inMemoryState = {}]: space id to entry. *)
Abbreviation Store := (gmap string Entry).

(** [req.body] of a webhook call, as [bodyParser.json()] leaves it.  A handler
    reads only the fields of its own event type. *)
Record Body : Type := {
  type : string;
  spaceId : string;
  userId : string;
  content : string;
  annotationType : string;
  annotationPayload : string;
  challenge : string
}.

(** [res], the reply to the webhook call: what was written to it so far. *)
Record Res : Type := {
  res_statusCode : Z;
  res_headers : list (string * string);
  res_body : string;
  finished : bool
}.

Definition res_new : Res :=
  {| res_statusCode := 200; res_headers := []; res_body := EmptyString;
     finished := false |}.

(** [res.status(c)], [res.set(k, v)], [res.send(b)] and [res.end()]; once the
    reply has been sent nothing changes it. *)
Definition res_status (c : Z) (res : Res) : Res :=
  if finished res then res
  else {| res_statusCode := c; res_headers := res_headers res;
          res_body := res_body res; finished := false |}.

Definition res_set (k v : string) (res : Res) : Res :=
  if finished res then res
  else {| res_statusCode := res_statusCode res;
          res_headers := res_headers res ++ [(k, v)];
          res_body := res_body res; finished := false |}.

Definition res_send (b : string) (res : Res) : Res :=
  if finished res then res
  else {| res_statusCode := res_statusCode res; res_headers := res_headers res;
          res_body := b; finished := true |}.

Definition res_end (res : Res) : Res :=
  {| res_statusCode := res_statusCode res; res_headers := res_headers res;
     res_body := res_body res; finished := true |}.

Definition get_header (k : string) (res : Res) : option string :=
  snd <$> List.find (fun kv => String.eqb (fst kv) k) (res_headers res).

(** The exceptions the program can raise. *)
Inductive exn : Type := TypeError | SyntaxError.

(** [JSON.parse(text)] read at the type the program uses the value at: [inl e]
    when [JSON.parse] throws, or when the first property read of the parsed
    value does (it is [null], or not of the shape the provider documents). *)
Class FromJSON (A : Type) : Type := JSON_parse : string -> exn + A.

(** The parsed [annotationPayload]; [None]: the property is absent or is not a
    string, and then [===] with a string literal is false. *)
Record AnnotationBody : Type := {
  lens : option string;
  category : option string
}.

(** The body of an OAuth token reply. *)
Record TokenBody : Type := { access_token : string }.

(** The options object given to [request]. *)
Record Auth : Type := { user : string; pass : string }.
Record Query : Type := { location : string; term : string; limit : Z }.

(** [messageData] of [sendMessage]; the version 1.0 is the number 1. *)
Record Annotation : Type := {
  ann_type : string;
  ann_version : Z;
  color : string;
  ann_title : string;
  text : string
}.
Record MessageData : Type := {
  msg_type : string;
  msg_version : Z;
  annotations : list Annotation
}.

Record Options : Type := {
  method : string;
  url : string;
  auth : option Auth;
  form : list (string * string);
  headers : list (string * string);
  qs : option Query;
  json : option MessageData
}.

(** What the callback of [request] is called with: [(err, response, body)].
    On a network error [response] and [body] are [undefined]. *)
Inductive Reply : Type :=
  | NetworkError
  | Response (statusCode : Z) (body : string).

(** A pending HTTP call and how the process goes on when its reply arrives.
    A callback returns normally, lets an exception escape, or ends the process
    ([process.exit]); the first two carry the dictionary as the callback left
    it and the calls it started. *)
Inductive task : Type :=
  | Request (options : Options) (callback : Reply -> Store -> outcome)
with outcome : Type :=
  | Return (st : Store) (started : list task)
  | Throw (e : exn) (st : Store) (started : list task)
  | Exit (exit_code : Z).

(** [process.env] *)
Record process_env : Type := {
  APP_ID : string;
  APP_SECRET : string;
  WEBHOOK_SECRET : string;
  YELP_ID : string;
  YELP_SECRET : string
}.

(** A business of a search reply, in the shape the search provider documents:
    strings [name] and [url] ([business_url] here, next to the [url] of the
    request options), a list of categories with a [title] each, and a numeric
    [rating]. *)
Record Category : Type := { title : string }.
Record Business (number : Type) : Type := {
  name : string;
  business_url : string;
  categories : list Category;
  rating : number
}.
Record SearchResponse (number : Type) : Type := {
  businesses : list (Business number)
}.
Arguments name {number}.
Arguments business_url {number}.
Arguments categories {number}.
Arguments rating {number}.
Arguments businesses {number}.

(** ** The program *)

Section App.

(** JavaScript numbers enter only as the rating of a business, and only to be
    printed by a template literal. *)
Variable number : Type.
Variable Number_toString : number -> string.

Context `{!FromJSON AnnotationBody} `{!FromJSON TokenBody}
        `{!FromJSON (SearchResponse number)}.

Variable env : process_env.

(** *** yelp.js *)

Definition YELP_APP_ID : string := YELP_ID env.
Definition YELP_APP_SECRET : string := YELP_SECRET env.

Definition YELP_API : string := "https://api.yelp.com".
Definition YELP_OAUTH : string := "oauth2/token".
Definition YELP_SEARCH : string := "v3/businesses/search".

Definition yelp_authenticationOptions : Options :=
  {| method := "POST";
     url := YELP_API +:+ "/" +:+ YELP_OAUTH;
     auth := None;
     form := [("grant_type", "client_credentials");
              ("client_id", YELP_APP_ID);
              ("client_secret", YELP_APP_SECRET)];
     headers := [];
     qs := None;
     json := None |}.

(** The callback [authenticate] gives to [request]. *)
Definition authenticate_callback (callback : string -> Store -> outcome)
    (reply : Reply) (st : Store) : outcome :=
  match reply with
  | NetworkError => Throw TypeError st []
  | Response statusCode body =>
      if negb (statusCode =? 200) then Exit 1
      else match JSON_parse (A := TokenBody) body with
           | inl e => Throw e st []
           | inr parsed => callback (access_token parsed) st
           end
  end.

Definition authenticate (callback : string -> Store -> outcome) : task :=
  Request yelp_authenticationOptions (authenticate_callback callback).

Definition requestOptions (token zip : string) : Options :=
  {| method := "GET";
     url := YELP_API +:+ "/" +:+ YELP_SEARCH;
     auth := None;
     form := [];
     headers := [("Authorization", "Bearer " +:+ token)];
     qs := Some {| location := zip; term := "food"; limit := 5 |};
     json := None |}.

(** The callback of the search request: [callback(JSON.parse(body))]. *)
Definition search_callback
    (callback : SearchResponse number -> Store -> outcome)
    (reply : Reply) (st : Store) : outcome :=
  match reply with
  | NetworkError => Throw SyntaxError st []
  | Response _ body =>
      match JSON_parse (A := SearchResponse number) body with
      | inl e => Throw e st []
      | inr parsed => callback parsed st
      end
  end.

Definition searchYelp (zip : string)
    (callback : SearchResponse number -> Store -> outcome) : task :=
  authenticate (fun token st =>
    Return st [Request (requestOptions token zip) (search_callback callback)]).

(** *** app.js *)

Definition watsonWork : string := "https://api.watsonwork.ibm.com".
Definition appId : string := APP_ID env.
Definition appSecret : string := APP_SECRET env.
Definition webhookSecret : string := WEBHOOK_SECRET env.

Definition PROMPT_TO_LIST : string := "Would you like to search for restaurants?".
Definition WHICH_ZIP : string := "Which zipcode should we search in?".
Definition CANCEL_REQUEST : string := "No problem! Let us know if you need to later!".

Definition ignoreMessage (res : Res) : Res := res_end (res_status 200 res).

Definition verifyCallback (req : Body) (res : Res) : Res :=
  let bodyToSend := {| response := challenge req |} in
  let hashToSend :=
    createHmac_sha256_hex webhookSecret (JSON_stringify bodyToSend) in
  let res := res_set "X-OUTBOUND-TOKEN" hashToSend res in
  res_end (res_send (JSON_stringify bodyToSend) res).

Definition authenticationOptions : Options :=
  {| method := "POST";
     url := watsonWork +:+ "/" +:+ "oauth/token";
     auth := Some {| user := appId; pass := appSecret |};
     form := [("grant_type", "client_credentials")];
     headers := [];
     qs := None;
     json := None |}.

(** The callback [authenticateApp] gives to [request]. *)
Definition authenticateApp_callback (callback : string -> Store -> outcome)
    (reply : Reply) (st : Store) : outcome :=
  match reply with
  | NetworkError => Throw TypeError st []
  | Response statusCode body =>
      if negb (statusCode =? 200) then Exit 1
      else match JSON_parse (A := TokenBody) body with
           | inl e => Throw e st []
           | inr parsed => callback (access_token parsed) st
           end
  end.

Definition authenticateApp (callback : string -> Store -> outcome) : task :=
  Request authenticationOptions (authenticateApp_callback callback).

Definition messageData (message : string) : MessageData :=
  {| msg_type := "appMessage";
     msg_version := 1;
     annotations :=
       [{| ann_type := "generic"; ann_version := 1; color := "#D5212B";
           ann_title := "Yelp Search"; text := message |}] |}.

Definition sendMessageOptions (spaceId jwt message : string) : Options :=
  {| method := "POST";
     url := watsonWork +:+ "/" +:+ ("v1/spaces/" +:+ spaceId +:+ "/messages");
     auth := None;
     form := [];
     headers := [("Authorization", "Bearer " +:+ jwt)];
     qs := None;
     json := Some (messageData message) |}.

(** The callback of the POST of a message: a status other than 201 is
    logged, nothing else. *)
Definition sendMessage_callback (reply : Reply) (st : Store) : outcome :=
  match reply with
  | NetworkError => Throw TypeError st []
  | Response _ _ => Return st []
  end.

Definition sendMessage (spaceId message : string) : task :=
  authenticateApp (fun jwt st =>
    Return st [Request (sendMessageOptions spaceId jwt message)
                       sendMessage_callback]).

(** One turn of the [forEach] of [listRestaurants]: two appends to
    [message]; [restaurant.categories[0].title] throws when the list is
    empty. *)
Definition append_restaurant (message : string) (restaurant : Business number)
    : exn + string :=
  let message :=
    message +:+ "* [" +:+ name restaurant +:+ "](" +:+ business_url restaurant +:+ ")" in
  match categories restaurant with
  | [] => inl TypeError
  | c :: _ =>
      inr (message +:+ " - " +:+ title c +:+ " (Rated: "
           +:+ Number_toString (rating restaurant) +:+ " stars)" +:+ LF)
  end.

Fixpoint forEach (l : list (Business number)) (message : string)
    : exn + string :=
  match l with
  | [] => inr message
  | restaurant :: l' =>
      match append_restaurant message restaurant with
      | inl e => inl e
      | inr message' => forEach l' message'
      end
  end.

(** The callback [listRestaurants] gives to [searchYelp]. *)
Definition listRestaurants_callback (spaceId : string)
    (response : SearchResponse number) (st : Store) : outcome :=
  match forEach (businesses response) ("Here are some options:" +:+ LF +:+ LF) with
  | inl e => Throw e st []
  | inr message => Return (delete spaceId st) [sendMessage spaceId message]
  end.

Definition listRestaurants (spaceId : string) (st : Store) : outcome :=
  match st !! spaceId with
  | None => Throw TypeError st []
  | Some entry =>
      if negb (truthy_string (zip entry)) then
        Return (alter (set_state 2) spaceId st)
               [sendMessage spaceId WHICH_ZIP]
      else
        Return st [searchYelp (zip entry) (listRestaurants_callback spaceId)]
  end.

(** JavaScript truthiness of [state]: [undefined] and 0 are falsy. *)
Definition truthy_state (s : option Z) : bool :=
  match s with
  | None => false
  | Some n => negb (n =? 0)
  end.

Definition checkResponse (req : Body) (res : Res) (st : Store)
    : Res * outcome :=
  let res := res_end (res_status 200 res) in
  let state := state <$> st !! spaceId req in
  if negb (truthy_state state) || String.eqb (userId req) appId then
    (ignoreMessage res, Return st [])
  else if bool_decide (state = Some 1) then
    if negb (String_match (content req) CONFIRMATION_REGEX) then
      (res, Return (delete (spaceId req) st)
                   [sendMessage (spaceId req) CANCEL_REQUEST])
    else (res, listRestaurants (spaceId req) st)
  else if bool_decide (state = Some 2) then
    (res, listRestaurants (spaceId req)
            (alter (set_zip (content req)) (spaceId req) st))
  else (res, listRestaurants (spaceId req) st).

Definition checkAnnotations (req : Body) (res : Res) (st : Store)
    : Res * outcome :=
  let res := res_end (res_status 200 res) in
  if negb (String.eqb (annotationType req) "message-focus") then
    (ignoreMessage res, Return st [])
  else
    match JSON_parse (A := AnnotationBody) (annotationPayload req) with
    | inl e => (res, Throw e st [])
    | inr annotationBody =>
        if bool_decide (lens annotationBody = Some "Food")
           && bool_decide (category annotationBody = Some "Request")
        then (res, Return (<[spaceId req := {| state := 1; zip := EmptyString |}]> st)
                          [sendMessage (spaceId req) PROMPT_TO_LIST])
        else (res, Return st [])
    end.

(** The names the table of [processEvent], an object literal, inherits from
    [Object.prototype].  [processEvent[req.body.type]] finds the inherited
    member for such a type, and it is truthy. *)
Definition Object_prototype_members : list string :=
  ["constructor"; "__defineGetter__"; "__defineSetter__"; "hasOwnProperty";
   "__lookupGetter__"; "__lookupSetter__"; "isPrototypeOf";
   "propertyIsEnumerable"; "toString"; "valueOf"; "__proto__";
   "toLocaleString"].

(** The call [member(req, res)] of an inherited member.  [__proto__] is an
    object, not a function, and [__defineGetter__] and [__defineSetter__] want
    a function where they get [res]: these three throw a [TypeError].  The
    others return a value that is dropped.  None writes to [res] or to the
    dictionary. *)
Definition Object_prototype_call (member : string) (res : Res) (st : Store)
    : Res * outcome :=
  if bool_decide (member ∈ ["__proto__"; "__defineGetter__"; "__defineSetter__"])
  then (res, Throw TypeError st [])
  else (res, Return st []).

(** The table of [processEvent] by event type: its own three keys, then what
    it inherits; a type that is neither is acknowledged and dropped.  No
    handler calls [next], so the second handler of the [/webhook] route never
    runs. *)
Definition processEvent (req : Body) (res : Res) (st : Store)
    : Res * outcome :=
  if String.eqb (type req) "verification" then
    (verifyCallback req res, Return st [])
  else if String.eqb (type req) "message-annotation-added" then
    checkAnnotations req res st
  else if String.eqb (type req) "message-created" then
    checkResponse req res st
  else if bool_decide (type req ∈ Object_prototype_members) then
    Object_prototype_call (type req) res st
  else (ignoreMessage res, Return st []).

(** *** The running process *)

(** The dictionary and the HTTP calls whose reply is still to come. *)
Record System : Type := { inMemoryState : Store; pending : list task }.

Definition boot : System := {| inMemoryState := ∅; pending := [] |}.

(** What a callback or handler leaves behind when the process goes on. *)
Definition survives (o : outcome) : option (Store * list task) :=
  match o with
  | Return st ts => Some (st, ts)
  | Throw _ _ _ | Exit _ => None
  end.

(** What a webhook handler leaves behind: Express catches an exception of a
    handler, and the process goes on with what the handler did before. *)
Definition handled (o : outcome) : option (Store * list task) :=
  match o with
  | Return st ts | Throw _ st ts => Some (st, ts)
  | Exit _ => None
  end.

(** One event of the process: a webhook call is handled, or the reply of a
    pending call arrives and its callback returns.  An exception escaping a
    callback, and [process.exit], end the process. *)
Inductive step : System -> System -> Prop :=
  | step_webhook s req st ts :
      handled (processEvent req res_new (inMemoryState s)).2 = Some (st, ts) ->
      step s {| inMemoryState := st; pending := pending s ++ ts |}
  | step_reply s before options callback after reply st ts :
      pending s = before ++ Request options callback :: after ->
      survives (callback reply (inMemoryState s)) = Some (st, ts) ->
      step s {| inMemoryState := st; pending := before ++ after ++ ts |}.

Definition reachable (s : System) : Prop := rtc step boot s.

(** Every entry is at the confirmation stage with no zip yet, or at the
    zip-collection stage. *)
Definition entry_ok (entry : Entry) : Prop :=
  (state entry = 1 /\ zip entry = EmptyString) \/ state entry = 2.

Definition store_ok (st : Store) : Prop :=
  forall spaceId entry, st !! spaceId = Some entry -> entry_ok entry.

(** A pending call whose callback, and the callbacks of the calls it starts,
    keep [store_ok]. *)
Inductive task_ok : task -> Prop :=
  | task_ok_Request options callback :
      (forall reply st, store_ok st -> outcome_ok (callback reply st)) ->
      task_ok (Request options callback)
with outcome_ok : outcome -> Prop :=
  | outcome_ok_Return st ts :
      store_ok st -> Forall task_ok ts -> outcome_ok (Return st ts)
  | outcome_ok_Throw e st ts :
      store_ok st -> Forall task_ok ts -> outcome_ok (Throw e st ts)
  | outcome_ok_Exit c : outcome_ok (Exit c).

(** Observations on an outcome: the dictionary it leaves, and the options of
    the calls it started. *)
Definition store_of (o : outcome) (before : Store) : Store :=
  match o with
  | Return st _ | Throw _ st _ => st
  | Exit _ => before
  end.

Definition started_of (o : outcome) : list task :=
  match o with
  | Return _ ts | Throw _ _ ts => ts
  | Exit _ => []
  end.

Definition options_of (t : task) : Options :=
  match t with Request options _ => options end.

Definition callback_of (t : task) : Reply -> Store -> outcome :=
  match t with Request _ callback => callback end.

(** *** The shape of the entries is an invariant of the process *)

Lemma store_ok_empty : store_ok ∅.
Proof. intros k e H. by rewrite lookup_empty in H. Qed.

Lemma store_ok_insert k e st :
  entry_ok e -> store_ok st -> store_ok (<[k := e]> st).
Proof.
  intros He Hst k' e' H.
  destruct (decide (k = k')) as [->|Hne].
  - rewrite lookup_insert_eq in H. by simplify_eq.
  - rewrite lookup_insert_ne in H by done. by eapply Hst.
Qed.

Lemma store_ok_delete k st : store_ok st -> store_ok (delete k st).
Proof.
  intros Hst k' e' H.
  destruct (decide (k = k')) as [->|Hne].
  - by rewrite lookup_delete_eq in H.
  - rewrite lookup_delete_ne in H by done. by eapply Hst.
Qed.

Lemma store_ok_alter f k st :
  (forall e, st !! k = Some e -> entry_ok (f e)) ->
  store_ok st -> store_ok (alter f k st).
Proof.
  intros Hf Hst k' e' H.
  destruct (decide (k = k')) as [->|Hne].
  - rewrite lookup_alter_eq in H.
    destruct (st !! k') as [e|] eqn:E; simplify_eq/=. by apply Hf.
  - rewrite lookup_alter_ne in H by done. by eapply Hst.
Qed.

Lemma sendMessage_ok spaceId message : task_ok (sendMessage spaceId message).
Proof.
  constructor. intros reply st Hst. unfold authenticateApp_callback.
  destruct reply as [|statusCode body]; [by constructor|].
  destruct (negb _); [constructor|].
  destruct (JSON_parse body) as [e|parsed]; [by constructor|].
  constructor; [done|]. apply Forall_singleton. constructor.
  intros reply' st' Hst'. destruct reply'; by constructor.
Qed.

Lemma listRestaurants_callback_ok spaceId response st :
  store_ok st -> outcome_ok (listRestaurants_callback spaceId response st).
Proof.
  intros Hst. unfold listRestaurants_callback.
  destruct (forEach _ _) as [e|message]; [by constructor|].
  constructor; [by apply store_ok_delete|].
  apply Forall_singleton, sendMessage_ok.
Qed.

Lemma searchYelp_ok zip spaceId :
  task_ok (searchYelp zip (listRestaurants_callback spaceId)).
Proof.
  constructor. intros reply st Hst. unfold authenticate_callback.
  destruct reply as [|statusCode body]; [by constructor|].
  destruct (negb _); [constructor|].
  destruct (JSON_parse body) as [e|parsed]; [by constructor|].
  constructor; [done|]. apply Forall_singleton. constructor.
  intros reply' st' Hst'. unfold search_callback.
  destruct reply' as [|statusCode' body']; [by constructor|].
  destruct (JSON_parse body') as [e|parsed']; [by constructor|].
  by apply listRestaurants_callback_ok.
Qed.

Lemma listRestaurants_ok spaceId st :
  store_ok st -> outcome_ok (listRestaurants spaceId st).
Proof.
  intros Hst. unfold listRestaurants.
  destruct (st !! spaceId) as [entry|] eqn:E; [|by constructor].
  destruct (negb _).
  - constructor.
    + apply store_ok_alter; [|done]. intros e _. by right.
    + apply Forall_singleton, sendMessage_ok.
  - constructor; [done|]. apply Forall_singleton, searchYelp_ok.
Qed.

Lemma checkResponse_ok req res st :
  store_ok st -> outcome_ok (checkResponse req res st).2.
Proof.
  intros Hst. unfold checkResponse.
  destruct (_ || _); [by constructor|].
  destruct (bool_decide (_ = Some 1)).
  - destruct (negb _); cbn [snd].
    + constructor; [by apply store_ok_delete|].
      apply Forall_singleton, sendMessage_ok.
    + by apply listRestaurants_ok.
  - destruct (bool_decide (_ = Some 2)) eqn:E2; cbn [snd].
    + apply listRestaurants_ok, store_ok_alter; [|done].
      intros e He. apply bool_decide_eq_true in E2.
      rewrite He in E2. simplify_eq/=. by right.
    + by apply listRestaurants_ok.
Qed.

Lemma checkAnnotations_ok req res st :
  store_ok st -> outcome_ok (checkAnnotations req res st).2.
Proof.
  intros Hst. unfold checkAnnotations.
  destruct (negb _); [by constructor|].
  destruct (JSON_parse _) as [e|annotationBody]; [by constructor|].
  destruct (_ && _); cbn [snd]; [|by constructor].
  constructor.
  - apply store_ok_insert; [by left|done].
  - apply Forall_singleton, sendMessage_ok.
Qed.

Lemma processEvent_ok req res st :
  store_ok st -> outcome_ok (processEvent req res st).2.
Proof.
  intros Hst. unfold processEvent, Object_prototype_call.
  repeat (destruct (String.eqb _ _)); repeat (destruct (bool_decide _));
    cbn [snd]; auto using checkAnnotations_ok, checkResponse_ok;
    by constructor.
Qed.

Definition system_ok (s : System) : Prop :=
  store_ok (inMemoryState s) /\ Forall task_ok (pending s).

Lemma step_ok s s' : step s s' -> system_ok s -> system_ok s'.
Proof.
  intros Hstep [Hst Hts].
  destruct Hstep as [s req st ts H | s before options callback after reply st ts Hp H].
  - pose proof (processEvent_ok req res_new _ Hst) as Hok.
    destruct Hok as [st' ts' ? ?|e st' ts' ? ?|c]; simplify_eq/=;
      (split; [done|]); apply Forall_app; by split.
  - rewrite Hp in Hts. apply Forall_app in Hts as [Hb Ha].
    apply Forall_cons in Ha as [Ht Ha].
    inversion Ht as [? ? Hcb]; subst.
    specialize (Hcb reply _ Hst).
    destruct Hcb as [st' ts' ? ?|e st' ts' ? ?|c]; simplify_eq/=.
    split; [done|]. cbn [pending]. rewrite !Forall_app. by repeat split.
Qed.

(** In every state the process reaches, an entry at the confirmation stage
    has no zip yet, and every other entry is at the zip-collection stage. *)
Lemma reachable_ok s : reachable s -> system_ok s.
Proof.
  apply (rtc_ind_r system_ok boot).
  - split; [apply store_ok_empty|constructor].
  - intros y z _ Hstep IH. by eapply step_ok.
Qed.

Lemma reachable_confirmation_zip s spaceId entry :
  reachable s -> inMemoryState s !! spaceId = Some entry ->
  state entry = 1 -> zip entry = EmptyString.
Proof.
  intros Hr He H1. apply reachable_ok in Hr as [Hst _].
  destruct (Hst _ _ He) as [[_ ?]|H2]; [done|]. congruence.
Qed.

(** *** The dispatcher *)

Lemma processEvent_verification req res st :
  type req = "verification" ->
  processEvent req res st = (verifyCallback req res, Return st []).
Proof. intros H. unfold processEvent. by rewrite H. Qed.

Lemma processEvent_annotation req res st :
  type req = "message-annotation-added" ->
  processEvent req res st = checkAnnotations req res st.
Proof. intros H. unfold processEvent. by rewrite H. Qed.

Lemma processEvent_message req res st :
  type req = "message-created" ->
  processEvent req res st = checkResponse req res st.
Proof. intros H. unfold processEvent. by rewrite H. Qed.

(** *** The outbound messenger and the search client *)

(** The call [sendMessage] starts is the OAuth call of the messaging
    platform; on a 200 reply with a token it posts the message, as the text
    of the one annotation, to the space. *)
Lemma sendMessage_posts spaceId message body parsed st :
  JSON_parse body = inr parsed ->
  options_of (sendMessage spaceId message) = authenticationOptions
  /\ callback_of (sendMessage spaceId message) (Response 200 body) st
      = Return st [Request (sendMessageOptions spaceId (access_token parsed) message)
                           sendMessage_callback]
  /\ json (sendMessageOptions spaceId (access_token parsed) message)
      = Some (messageData message)
  /\ map text (annotations (messageData message)) = [message].
Proof.
  intros H. split; [done|]. split; [|done].
  cbn. unfold authenticateApp_callback. cbn. by rewrite H.
Qed.

(** The call [searchYelp] starts is the OAuth call of the search provider;
    on a 200 reply with a token it issues the search. *)
Lemma searchYelp_searches zip callback body parsed st :
  JSON_parse body = inr parsed ->
  options_of (searchYelp zip callback) = yelp_authenticationOptions
  /\ callback_of (searchYelp zip callback) (Response 200 body) st
      = Return st [Request (requestOptions (access_token parsed) zip)
                           (search_callback callback)].
Proof.
  intros H. split; [done|].
  cbn. unfold authenticate_callback. cbn. by rewrite H.
Qed.

(** *** The reply handler *)

Lemma checkResponse_ignored req res st :
  userId req = appId \/ st !! spaceId req = None ->
  (checkResponse req res st).2 = Return st [].
Proof.
  intros H. unfold checkResponse.
  destruct H as [-> | ->].
  - by rewrite String.eqb_refl, orb_true_r.
  - done.
Qed.

Lemma checkResponse_confirmation req res st entry :
  st !! spaceId req = Some entry -> state entry = 1 -> userId req <> appId ->
  (checkResponse req res st).2
  = if String_match (content req) CONFIRMATION_REGEX
    then listRestaurants (spaceId req) st
    else Return (delete (spaceId req) st)
                [sendMessage (spaceId req) CANCEL_REQUEST].
Proof.
  intros He H1 Hu. unfold checkResponse.
  rewrite He. cbn [fmap option_fmap option_map truthy_state].
  rewrite H1. apply eqb_neq in Hu. rewrite Hu. cbn [negb Z.eqb orb].
  rewrite (bool_decide_eq_true_2 (Some 1 = Some 1)) by done.
  by destruct (String_match _ _).
Qed.

Lemma checkResponse_zip req res st entry :
  st !! spaceId req = Some entry -> state entry = 2 -> userId req <> appId ->
  (checkResponse req res st).2
  = listRestaurants (spaceId req)
      (<[spaceId req := {| state := 2; zip := content req |}]> st).
Proof.
  intros He H2 Hu. unfold checkResponse.
  rewrite He. cbn [fmap option_fmap option_map truthy_state].
  rewrite H2. apply eqb_neq in Hu. rewrite Hu. cbn [negb Z.eqb orb].
  rewrite (bool_decide_eq_false_2 (Some 2 = Some 1)) by done.
  rewrite (bool_decide_eq_true_2 (Some 2 = Some 2)) by done.
  cbn [snd]. f_equal. apply map_eq. intros k.
  destruct (decide (spaceId req = k)) as [<-|Hne].
  - rewrite lookup_alter_eq, lookup_insert_eq, He. cbn.
    unfold set_zip. by rewrite H2.
  - by rewrite lookup_alter_ne, lookup_insert_ne.
Qed.

Lemma listRestaurants_prompts spaceId st entry :
  st !! spaceId = Some entry -> zip entry = EmptyString ->
  listRestaurants spaceId st
  = Return (<[spaceId := {| state := 2; zip := EmptyString |}]> st)
           [sendMessage spaceId WHICH_ZIP].
Proof.
  intros He Hz. unfold listRestaurants. rewrite He, Hz. cbn.
  f_equal. apply map_eq. intros k.
  destruct (decide (spaceId = k)) as [<-|Hne].
  - rewrite lookup_alter_eq, lookup_insert_eq, He. cbn.
    unfold set_state. by rewrite Hz.
  - by rewrite lookup_alter_ne, lookup_insert_ne.
Qed.

Lemma listRestaurants_searches spaceId st entry :
  st !! spaceId = Some entry -> zip entry <> EmptyString ->
  listRestaurants spaceId st
  = Return st [searchYelp (zip entry) (listRestaurants_callback spaceId)].
Proof.
  intros He Hz. unfold listRestaurants. rewrite He.
  by destruct (zip entry).
Qed.

(** *** The intent detector *)

Lemma checkAnnotations_food_request req res st annotationBody :
  annotationType req = "message-focus" ->
  JSON_parse (annotationPayload req) = inr annotationBody ->
  lens annotationBody = Some "Food" ->
  category annotationBody = Some "Request" ->
  (checkAnnotations req res st).2
  = Return (<[spaceId req := {| state := 1; zip := EmptyString |}]> st)
           [sendMessage (spaceId req) PROMPT_TO_LIST].
Proof.
  intros Ht Hp Hl Hc. unfold checkAnnotations.
  rewrite Ht, Hp, Hl, Hc. done.
Qed.

Lemma checkAnnotations_other req res st :
  ~ (annotationType req = "message-focus"
     /\ exists annotationBody,
          JSON_parse (annotationPayload req) = inr annotationBody
          /\ lens annotationBody = Some "Food"
          /\ category annotationBody = Some "Request") ->
  store_of (checkAnnotations req res st).2 st = st
  /\ started_of (checkAnnotations req res st).2 = [].
Proof.
  intros H. unfold checkAnnotations.
  destruct (String.eqb_spec (annotationType req) "message-focus") as [Ht|Ht];
    [|done]. cbn [negb].
  destruct (JSON_parse _) as [e|annotationBody] eqn:Hp; [done|].
  destruct (bool_decide (lens _ = _)) eqn:Hl;
    destruct (bool_decide (category _ = _)) eqn:Hc; try done.
  apply bool_decide_eq_true in Hl, Hc.
  exfalso. apply H. eauto.
Qed.

(** *** Rendering the search results *)

Lemma append_assoc (a b c : string) : (a +:+ b) +:+ c = a +:+ (b +:+ c).
Proof.
  induction a as [|x a IH]; [reflexivity|].
  change (String x ((a +:+ b) +:+ c) = String x (a +:+ (b +:+ c))).
  by rewrite IH.
Qed.

Lemma append_empty_r (a : string) : a +:+ EmptyString = a.
Proof.
  induction a as [|x a IH]; [reflexivity|].
  change (String x (a +:+ EmptyString) = String x a).
  by rewrite IH.
Qed.

Definition concat_lines (lines : list string) : string :=
  fold_right String.append EmptyString lines.

(** The title of [categories[0]], when there is one. *)
Definition first_category_title (b : Business number) : string :=
  match categories b with
  | [] => EmptyString
  | c :: _ => title c
  end.

(** The bullet line of one business: the name linked to the url, the title of
    the first category and the rating. *)
Definition bullet_line (b : Business number) : string :=
  ("* [" +:+ name b +:+ "](" +:+ business_url b +:+ ")")
  +:+ (" - " +:+ first_category_title b +:+ " (Rated: "
       +:+ Number_toString (rating b) +:+ " stars)" +:+ LF).

Lemma append_restaurant_line message b :
  categories b <> [] ->
  append_restaurant message b = inr (message +:+ bullet_line b).
Proof.
  intros H. unfold append_restaurant, bullet_line, first_category_title.
  destruct (categories b) as [|c l]; [done|].
  by rewrite !append_assoc.
Qed.

Lemma forEach_renders l message :
  Forall (fun b => categories b <> []) l ->
  forEach l message = inr (message +:+ concat_lines (map bullet_line l)).
Proof.
  intros H. revert message.
  induction H as [|b l Hb _ IH]; intros message; cbn.
  - by rewrite append_empty_r.
  - rewrite append_restaurant_line by done. rewrite IH.
    by rewrite append_assoc.
Qed.

Lemma forEach_throws l message :
  Exists (fun b => categories b = []) l ->
  forEach l message = inl TypeError.
Proof.
  intros H. revert message.
  induction H as [b l Hb|b l _ IH]; intros message; cbn.
  - unfold append_restaurant. by rewrite Hb.
  - destruct (append_restaurant message b) as [e|m] eqn:E; [|by apply IH].
    unfold append_restaurant in E.
    destruct (categories b); by simplify_eq.
Qed.

(** The rendered text has one line per business: when no field of a business
    holds a line feed, the message has the two line feeds of the heading and
    one more for each business. *)
Fixpoint count_LF (s : string) : nat :=
  match s with
  | EmptyString => 0
  | String c s' => ((if Ascii.eqb c "010" then 1 else 0) + count_LF s')%nat
  end.

Lemma count_LF_app (a b : string) :
  count_LF (a +:+ b) = (count_LF a + count_LF b)%nat.
Proof.
  induction a as [|x a IH]; [reflexivity|].
  change (String x a +:+ b) with (String x (a +:+ b)).
  cbn [count_LF]. rewrite IH. lia.
Qed.

Definition single_line_fields (b : Business number) : Prop :=
  count_LF (name b) = 0%nat /\ count_LF (business_url b) = 0%nat
  /\ count_LF (first_category_title b) = 0%nat
  /\ count_LF (Number_toString (rating b)) = 0%nat.

Lemma bullet_line_one_line b :
  single_line_fields b -> count_LF (bullet_line b) = 1%nat.
Proof.
  intros (Hn & Hu & Hc & Hr). unfold bullet_line.
  rewrite !count_LF_app, Hn, Hu, Hc, Hr. reflexivity.
Qed.

Lemma rendered_line_count l :
  Forall single_line_fields l ->
  count_LF (("Here are some options:" +:+ LF +:+ LF)
            +:+ concat_lines (map bullet_line l))
  = (2 + length l)%nat.
Proof.
  intros H. rewrite count_LF_app.
  change (count_LF ("Here are some options:" +:+ LF +:+ LF)) with 2%nat.
  f_equal. induction H as [|b l Hb _ IH]; [reflexivity|].
  cbn [map concat_lines fold_right length].
  rewrite count_LF_app, bullet_line_one_line by done.
  unfold concat_lines in IH. by rewrite IH.
Qed.

(** ** The claims *)

(** C2. A message-created event sent by the bot's own application id, or for
    a space with no entry, leaves the dictionary as it is and starts no call:
    no message is sent and no search is made, whatever the stage of the
    conversation. *)
Theorem bot_or_idle_message_ignored req res st :
  type req = "message-created" ->
  userId req = appId \/ st !! spaceId req = None ->
  (processEvent req res st).2 = Return st [].
Proof.
  intros Ht H. rewrite processEvent_message by done.
  by apply checkResponse_ignored.
Qed.

(** C3. A message-focus annotation whose payload has lens Food and category
    Request, for a space with no entry, creates the entry at state 1 with an
    empty zip and sends the one prompt; an annotation event of another
    annotation type, lens or category leaves the dictionary as it is and
    starts no call. *)
Theorem intent_annotation_creates_entry req res st :
  type req = "message-annotation-added" ->
  (forall annotationBody,
      annotationType req = "message-focus" ->
      JSON_parse (annotationPayload req) = inr annotationBody ->
      lens annotationBody = Some "Food" ->
      category annotationBody = Some "Request" ->
      st !! spaceId req = None ->
      (processEvent req res st).2
      = Return (<[spaceId req := {| state := 1; zip := EmptyString |}]> st)
               [sendMessage (spaceId req) PROMPT_TO_LIST]
      /\ PROMPT_TO_LIST = "Would you like to search for restaurants?")
  /\ (~ (annotationType req = "message-focus"
         /\ exists annotationBody,
              JSON_parse (annotationPayload req) = inr annotationBody
              /\ lens annotationBody = Some "Food"
              /\ category annotationBody = Some "Request") ->
      store_of (processEvent req res st).2 st = st
      /\ started_of (processEvent req res st).2 = []).
Proof.
  intros Ht. rewrite processEvent_annotation by done. split.
  - intros annotationBody Ha Hp Hl Hc _. split; [|done].
    by eapply checkAnnotations_food_request.
  - apply checkAnnotations_other.
Qed.

(** C4. The same annotation overwrites whatever entry the space has: the
    entry is at state 1 with an empty zip afterwards, also when it was at
    state 2 with a zip; the entries of other spaces stay. *)
Theorem intent_annotation_overwrites req res st entry annotationBody :
  type req = "message-annotation-added" ->
  annotationType req = "message-focus" ->
  JSON_parse (annotationPayload req) = inr annotationBody ->
  lens annotationBody = Some "Food" ->
  category annotationBody = Some "Request" ->
  st !! spaceId req = Some entry ->
  exists st',
    (processEvent req res st).2
    = Return st' [sendMessage (spaceId req) PROMPT_TO_LIST]
    /\ st' !! spaceId req = Some {| state := 1; zip := EmptyString |}
    /\ forall other, other <> spaceId req -> st' !! other = st !! other.
Proof.
  intros Ht Ha Hp Hl Hc _.
  exists (<[spaceId req := {| state := 1; zip := EmptyString |}]> st).
  rewrite processEvent_annotation by done.
  split; [by eapply checkAnnotations_food_request|].
  split; [by rewrite lookup_insert_eq|].
  intros other Hne. by rewrite lookup_insert_ne.
Qed.

(** C1, amended. In a state the process reaches, for an entry at state 1 and
    a message-created event from a sender other than the bot: content that is,
    in full, one of the replies the pattern spells out (k, ok, y, yes, in any
    case) moves the entry to state 2 and sends the zip prompt; content in
    which the pattern finds nothing deletes the entry and sends the
    cancellation message, once.  Content that only holds a match somewhere,
    as "maybe" does, is left out of the statement. *)
Theorem confirmation_reply s req res entry :
  reachable s ->
  inMemoryState s !! spaceId req = Some entry ->
  state entry = 1 ->
  type req = "message-created" ->
  userId req <> appId ->
  (RegExp_full_match CONFIRMATION_REGEX (content req) = true ->
   (processEvent req res (inMemoryState s)).2
   = Return (<[spaceId req := {| state := 2; zip := EmptyString |}]>
               (inMemoryState s))
            [sendMessage (spaceId req) WHICH_ZIP])
  /\ (String_match (content req) CONFIRMATION_REGEX = false ->
      (processEvent req res (inMemoryState s)).2
      = Return (delete (spaceId req) (inMemoryState s))
               [sendMessage (spaceId req) CANCEL_REQUEST]).
Proof.
  intros Hr He H1 Ht Hu.
  rewrite processEvent_message by done.
  rewrite (checkResponse_confirmation _ _ _ _ He H1 Hu).
  split.
  - intros Hfull. rewrite (full_match_search _ _ Hfull).
    eapply listRestaurants_prompts; [done|].
    by eapply reachable_confirmation_zip.
  - by intros ->.
Qed.

(** C5, amended. For an entry at state 2 and a message-created event from a
    sender other than the bot with non-empty content: the content becomes the
    zip of the entry, one search is started, and the search request, issued
    when the provider's OAuth call answers 200 with a token, has the query
    location = content, term = food, limit = 5. *)
Theorem zip_reply_searches req res st entry :
  type req = "message-created" ->
  st !! spaceId req = Some entry ->
  state entry = 2 ->
  userId req <> appId ->
  content req <> EmptyString ->
  (processEvent req res st).2
  = Return (<[spaceId req := {| state := 2; zip := content req |}]> st)
           [searchYelp (content req) (listRestaurants_callback (spaceId req))]
  /\ forall body (parsed : TokenBody) st',
       JSON_parse body = inr parsed ->
       exists options callback,
         callback_of (searchYelp (content req)
                        (listRestaurants_callback (spaceId req)))
                     (Response 200 body) st'
         = Return st' [Request options callback]
         /\ method options = "GET"
         /\ url options = "https://api.yelp.com/v3/businesses/search"
         /\ qs options
            = Some {| location := content req; term := "food"; limit := 5 |}.
Proof.
  intros Ht He H2 Hu Hc.
  rewrite processEvent_message by done.
  rewrite (checkResponse_zip _ _ _ _ He H2 Hu). split.
  - by rewrite (listRestaurants_searches _ _
                 {| state := 2; zip := content req |})
      by (by rewrite ?lookup_insert_eq).
  - intros body parsed st' Hp.
    destruct (searchYelp_searches (content req)
                (listRestaurants_callback (spaceId req)) body parsed st' Hp)
      as [_ ->].
    eexists _, _. split; [reflexivity|]. by repeat split.
Qed.

(** C9, amended. For an entry at state 2 and a message-created event from a
    sender other than the bot whose content is the empty string: the empty
    string becomes the zip, no search is started, the zip prompt is sent
    again and the entry stays at state 2. *)
Theorem empty_zip_reprompts req res st entry :
  type req = "message-created" ->
  st !! spaceId req = Some entry ->
  state entry = 2 ->
  userId req <> appId ->
  content req = EmptyString ->
  (processEvent req res st).2
  = Return (<[spaceId req := {| state := 2; zip := EmptyString |}]> st)
           [sendMessage (spaceId req) WHICH_ZIP]
  /\ WHICH_ZIP = "Which zipcode should we search in?".
Proof.
  intros Ht He H2 Hu Hc. split; [|done].
  rewrite processEvent_message by done.
  rewrite (checkResponse_zip _ _ _ _ He H2 Hu), Hc.
  rewrite (listRestaurants_prompts _ _ {| state := 2; zip := EmptyString |})
    by (by rewrite ?lookup_insert_eq).
  by rewrite insert_insert_eq.
Qed.

(** C6, amended. For a search reply whose businesses all have a category:
    the callback sends one message, the heading followed by one bullet line
    per business, in order, each with the name linked to the url, the title
    of the first category and the rating, and deletes the entry of the
    space; a later message for the space is ignored. *)
Theorem results_rendered_and_entry_removed spaceId' statusCode body response st :
  JSON_parse body = inr response ->
  Forall (fun b => categories b <> []) (businesses response) ->
  search_callback (listRestaurants_callback spaceId')
                  (Response statusCode body) st
  = Return (delete spaceId' st)
           [sendMessage spaceId'
              (("Here are some options:" +:+ LF +:+ LF)
               +:+ concat_lines (map bullet_line (businesses response)))]
  /\ length (map bullet_line (businesses response))
     = length (businesses response)
  /\ forall req res,
       type req = "message-created" -> spaceId req = spaceId' ->
       (processEvent req res (delete spaceId' st)).2
       = Return (delete spaceId' st) [].
Proof.
  intros Hp Hc. split; [|split].
  - unfold search_callback, listRestaurants_callback.
    by rewrite Hp, forEach_renders.
  - apply length_map.
  - intros req res Ht <-. rewrite processEvent_message by done.
    apply checkResponse_ignored. right. apply lookup_delete_eq.
Qed.

(** C10. The rendering reads [categories[0].title] of every business with no
    guard: the callback sends a message and deletes the entry exactly when
    every business of the reply has a category; when one has none a
    [TypeError] escapes, no message is sent and the entry stays. *)
Theorem rendering_needs_categories spaceId' response st :
  (Forall (fun b => categories b <> []) (businesses response)
   <-> exists message,
         listRestaurants_callback spaceId' response st
         = Return (delete spaceId' st) [sendMessage spaceId' message])
  /\ (Exists (fun b => categories b = []) (businesses response) ->
      listRestaurants_callback spaceId' response st = Throw TypeError st [])
  /\ (forall b rest,
        categories b = [] ->
        listRestaurants_callback spaceId'
          {| businesses := b :: rest |} st = Throw TypeError st []).
Proof.
  assert (Hthrow : forall r,
    Exists (fun b => categories b = []) (businesses r) ->
    listRestaurants_callback spaceId' r st = Throw TypeError st []).
  { intros r H. unfold listRestaurants_callback.
    by rewrite forEach_throws. }
  split; [split|split].
  - intros H. eexists. unfold listRestaurants_callback.
    by rewrite forEach_renders.
  - intros [message Hm].
    destruct (decide (Forall (fun b : Business number => categories b <> [])
                             (businesses response))) as [|Hn]; [done|].
    apply not_Forall_Exists in Hn; [|apply _].
    rewrite Hthrow in Hm; [done|].
    eapply Exists_impl; [done|]. cbn. intros b Hb.
    by destruct (categories b); [|destruct Hb].
  - apply Hthrow.
  - intros b rest Hb. apply Hthrow. by left.
Qed.

(** C7. The reply to a verification event carries, in the header
    X-OUTBOUND-TOKEN, the HMAC-SHA256 hex digest, keyed by the webhook
    secret, of the JSON text of [{response: challenge}], and that JSON text
    as its body; the dictionary is untouched and no call is started. *)
Theorem verification_token req st :
  type req = "verification" ->
  get_header "X-OUTBOUND-TOKEN" (processEvent req res_new st).1
  = Some (createHmac_sha256_hex webhookSecret
            (JSON_stringify {| response := challenge req |}))
  /\ res_body (processEvent req res_new st).1
     = JSON_stringify {| response := challenge req |}
  /\ (processEvent req res_new st).2 = Return st [].
Proof.
  intros Ht. by rewrite processEvent_verification.
Qed.

(** C8. In both OAuth calls a reply whose status is not 200 ends the process
    with exit code 1: the callback starts no call, so nothing is retried.
    The continuation can only run on a reply of status 200: on any other
    reply the outcome is the same whatever the continuation is. *)
Theorem authentication_failure_exits (k : string -> Store -> outcome) reply st :
  (forall statusCode body,
      reply = Response statusCode body -> statusCode <> 200 ->
      callback_of (authenticateApp k) reply st = Exit 1
      /\ callback_of (authenticate k) reply st = Exit 1)
  /\ (forall k',
        callback_of (authenticateApp k) reply st
        <> callback_of (authenticateApp k') reply st ->
        exists body, reply = Response 200 body)
  /\ (forall k',
        callback_of (authenticate k) reply st
        <> callback_of (authenticate k') reply st ->
        exists body, reply = Response 200 body).
Proof.
  split; [|split].
  - intros statusCode body -> Hne. cbn.
    unfold authenticateApp_callback, authenticate_callback.
    apply Z.eqb_neq in Hne. by rewrite Hne.
  - intros k'. cbn. unfold authenticateApp_callback.
    destruct reply as [|statusCode body]; [done|].
    destruct (Z.eqb_spec statusCode 200) as [->|]; [eauto|done].
  - intros k'. cbn. unfold authenticate_callback.
    destruct reply as [|statusCode body]; [done|].
    destruct (Z.eqb_spec statusCode 200) as [->|]; [eauto|done].
Qed.

(** ** Further properties of the handlers *)

(** A relation between the dictionary a callback finds and the one it leaves,
    kept by a pending call, by the calls its callback starts, and so on. *)
Inductive hereditarily (P : Store -> Store -> Prop) : task -> Prop :=
  | hereditarily_Request options callback :
      (forall reply st, outcome_keeps P st (callback reply st)) ->
      hereditarily P (Request options callback)
with outcome_keeps (P : Store -> Store -> Prop) : Store -> outcome -> Prop :=
  | outcome_keeps_Return st st' ts :
      P st st' -> Forall (hereditarily P) ts ->
      outcome_keeps P st (Return st' ts)
  | outcome_keeps_Throw e st st' ts :
      P st st' -> Forall (hereditarily P) ts ->
      outcome_keeps P st (Throw e st' ts)
  | outcome_keeps_Exit st c : outcome_keeps P st (Exit c).

(** The dictionaries agree outside one space. *)
Definition same_elsewhere (spaceId' : string) (st st' : Store) : Prop :=
  forall other, other <> spaceId' -> st' !! other = st !! other.

(** A bound on the HTTP calls a pending call leads to: the call itself and
    the calls its callback starts, whatever the replies are. *)
Inductive calls_at_most : nat -> task -> Prop :=
  | calls_at_most_Request n m options callback :
      (forall reply st, started_at_most n (started_of (callback reply st))) ->
      (n < m)%nat ->
      calls_at_most m (Request options callback)
with started_at_most : nat -> list task -> Prop :=
  | started_at_most_nil n : started_at_most n []
  | started_at_most_cons a b n t ts :
      calls_at_most a t -> started_at_most b ts -> (a + b <= n)%nat ->
      started_at_most n (t :: ts).

Lemma started_at_most_one n t : calls_at_most n t -> started_at_most n [t].
Proof.
  intros H. apply (started_at_most_cons n 0 n); [done|constructor|lia].
Qed.

Lemma truthy_state_entry (st : Store) k :
  truthy_state (state <$> st !! k) = true ->
  exists entry, st !! k = Some entry /\ state entry <> 0.
Proof.
  destruct (st !! k) as [entry|]; [|done]. cbn.
  intros H. exists entry. split; [done|].
  intros H0. by rewrite H0 in H.
Qed.

(** What [listRestaurants] starts: the zip prompt when the entry has no zip,
    a search with the zip of the entry otherwise. *)
Lemma listRestaurants_entry spaceId' st entry :
  st !! spaceId' = Some entry ->
  (zip entry = EmptyString
   /\ listRestaurants spaceId' st
      = Return (alter (set_state 2) spaceId' st)
               [sendMessage spaceId' WHICH_ZIP])
  \/ (zip entry <> EmptyString
      /\ listRestaurants spaceId' st
         = Return st [searchYelp (zip entry)
                        (listRestaurants_callback spaceId')]).
Proof.
  intros He. unfold listRestaurants. rewrite He.
  destruct (zip entry) as [|c z]; [left|right]; done.
Qed.

(** The outcomes of [checkResponse], by cases. *)
Lemma checkResponse_cases req res st :
  (checkResponse req res st).2 = Return st []
  \/ (checkResponse req res st).2
     = Return (delete (spaceId req) st)
              [sendMessage (spaceId req) CANCEL_REQUEST]
  \/ exists st' entry,
       same_elsewhere (spaceId req) st st'
       /\ st' !! spaceId req = Some entry
       /\ (checkResponse req res st).2 = listRestaurants (spaceId req) st'.
Proof.
  unfold checkResponse.
  destruct (negb (truthy_state _)) eqn:Hs; [by left|].
  apply negb_false_iff, truthy_state_entry in Hs as (entry & He & _).
  destruct (String.eqb _ _); [by left|]. cbn [orb].
  destruct (bool_decide (_ = Some 1)).
  - destruct (negb _); cbn [snd]; [by right; left|].
    right; right. exists st, entry. by split.
  - destruct (bool_decide (_ = Some 2)); cbn [snd]; right; right.
    + exists (alter (set_zip (content req)) (spaceId req) st),
             (set_zip (content req) entry).
      split; [|split; [|done]].
      * intros other Hne. by rewrite lookup_alter_ne.
      * by rewrite lookup_alter_eq, He.
    + exists st, entry. by split.
Qed.

(** The own keys of the table are not names it inherits. *)
Lemma own_keys_not_inherited t :
  t = "verification" \/ t = "message-annotation-added" \/ t = "message-created" ->
  t ∉ Object_prototype_members.
Proof.
  intros [-> | [-> | ->]] H;
    apply (bool_decide_eq_true_2 (_ ∈ Object_prototype_members)) in H;
    vm_compute in H; discriminate H.
Qed.

(** The dispatch of [processEvent], by cases on the type of the event. *)
Lemma processEvent_cases req res st :
  (type req = "verification"
   /\ processEvent req res st = (verifyCallback req res, Return st []))
  \/ (type req = "message-annotation-added"
      /\ processEvent req res st = checkAnnotations req res st)
  \/ (type req = "message-created"
      /\ processEvent req res st = checkResponse req res st)
  \/ ((type req ∈ Object_prototype_members)
      /\ processEvent req res st = Object_prototype_call (type req) res st)
  \/ ((type req ∉ Object_prototype_members)
      /\ type req <> "message-annotation-added"
      /\ processEvent req res st = (ignoreMessage res, Return st [])).
Proof.
  unfold processEvent.
  destruct (String.eqb_spec (type req) "verification"); [by left|].
  destruct (String.eqb_spec (type req) "message-annotation-added");
    [by right; left|].
  destruct (String.eqb_spec (type req) "message-created");
    [by right; right; left|].
  case_bool_decide; [by right; right; right; left|by right; right; right; right].
Qed.

(** An inherited member writes neither to the reply nor to the dictionary,
    and starts nothing. *)
Lemma Object_prototype_call_cases member res st :
  ((member ∈ ["__proto__"; "__defineGetter__"; "__defineSetter__"])
   /\ Object_prototype_call member res st = (res, Throw TypeError st []))
  \/ ((member ∉ ["__proto__"; "__defineGetter__"; "__defineSetter__"])
      /\ Object_prototype_call member res st = (res, Return st [])).
Proof.
  unfold Object_prototype_call. case_bool_decide; [by left|by right].
Qed.

(** X2. A webhook call is answered by its handler, and then with status 200,
    exactly when the type of the event is not the name of a member the table
    of [processEvent] inherits from [Object.prototype]: for every other type,
    known or not, whatever the body and the dictionary are and also when the
    handler goes on to throw, the reply is sent with status 200; for
    [constructor], [toString] and the like the inherited member is called and
    the handler sends no reply. *)
Theorem webhook_always_acknowledged req st :
  (type req ∉ Object_prototype_members ->
   res_statusCode (processEvent req res_new st).1 = 200
   /\ finished (processEvent req res_new st).1 = true)
  /\ (type req ∈ Object_prototype_members ->
      finished (processEvent req res_new st).1 = false).
Proof.
  destruct (processEvent_cases req res_new st)
    as [[Ht ->]|[[Ht ->]|[[Ht ->]|[[Ht ->]|(Ht & _ & ->)]]]].
  - split; [done|]. intros H. by apply own_keys_not_inherited in H; auto.
  - split; [|intros H; by apply own_keys_not_inherited in H; auto].
    intros _. unfold checkAnnotations.
    destruct (negb _); [done|].
    destruct (JSON_parse _); [done|]. by destruct (_ && _).
  - split; [|intros H; by apply own_keys_not_inherited in H; auto].
    intros _. unfold checkResponse.
    destruct (_ || _); [done|].
    destruct (bool_decide _); [by destruct (negb _)|].
    by destruct (bool_decide _).
  - split; [done|]. intros _.
    by destruct (Object_prototype_call_cases (type req) res_new st)
      as [[_ ->]|[_ ->]].
  - by split.
Qed.

(** X3. A webhook call starts nothing, or one message to the space of the
    event, or one search, for a zip that is not empty, whose results go to the
    space of the event. *)
Theorem webhook_starts_at_most_one req res st :
  started_of (processEvent req res st).2 = []
  \/ (exists message,
        started_of (processEvent req res st).2
        = [sendMessage (spaceId req) message])
  \/ (exists zip',
        zip' <> EmptyString
        /\ started_of (processEvent req res st).2
           = [searchYelp zip' (listRestaurants_callback (spaceId req))]).
Proof.
  destruct (processEvent_cases req res st)
    as [[_ ->]|[[_ ->]|[[_ ->]|[[_ ->]|(_ & _ & ->)]]]].
  - by left.
  - unfold checkAnnotations.
    destruct (negb _); [by left|].
    destruct (JSON_parse _); [by left|].
    destruct (_ && _); [right; left; by eexists|by left].
  - destruct (checkResponse_cases req res st)
      as [->|[->|(st' & entry & _ & He & ->)]];
      [by left|right; left; by eexists|].
    destruct (listRestaurants_entry _ _ _ He) as [[_ ->]|[Hz ->]].
    + right; left. by eexists.
    + right; right. by eexists.
  - left. by destruct (Object_prototype_call_cases (type req) res st)
      as [[_ ->]|[_ ->]].
  - by left.
Qed.



(** [sendMessage] keeps every relation that holds of a dictionary and itself:
    none of its callbacks writes to the dictionary. *)
Lemma sendMessage_hereditarily P spaceId' message :
  (forall st, P st st) -> hereditarily P (sendMessage spaceId' message).
Proof.
  intros HP. constructor. intros reply st. unfold authenticateApp_callback.
  destruct reply as [|statusCode body]; [by constructor|].
  destruct (negb _); [constructor|].
  destruct (JSON_parse body) as [e|parsed]; [by constructor|].
  constructor; [done|]. apply Forall_singleton. constructor.
  intros reply' st'. destruct reply'; by constructor.
Qed.

Lemma same_elsewhere_refl spaceId' st : same_elsewhere spaceId' st st.
Proof. by intros other _. Qed.

Lemma searchYelp_hereditarily zip' spaceId' :
  hereditarily (same_elsewhere spaceId')
    (searchYelp zip' (listRestaurants_callback spaceId')).
Proof.
  constructor. intros reply st. unfold authenticate_callback.
  destruct reply as [|statusCode body];
    [constructor; [apply same_elsewhere_refl|done]|].
  destruct (negb _); [constructor|].
  destruct (JSON_parse body) as [e|parsed];
    [constructor; [apply same_elsewhere_refl|done]|].
  constructor; [apply same_elsewhere_refl|].
  apply Forall_singleton. constructor.
  intros reply' st'. unfold search_callback.
  destruct reply' as [|statusCode' body'];
    [constructor; [apply same_elsewhere_refl|done]|].
  destruct (JSON_parse body') as [e|parsed'];
    [constructor; [apply same_elsewhere_refl|done]|].
  unfold listRestaurants_callback.
  destruct (forEach _ _) as [e|message];
    [constructor; [apply same_elsewhere_refl|done]|].
  constructor.
  - intros other Hne. by rewrite lookup_delete_ne.
  - apply Forall_singleton, sendMessage_hereditarily, same_elsewhere_refl.
Qed.

(** The OAuth callback of [sendMessage] starts the POST, or nothing. *)
Lemma sendMessage_started spaceId' message reply st :
  started_at_most 1
    (started_of (callback_of (sendMessage spaceId' message) reply st)).
Proof.
  cbn. unfold authenticateApp_callback.
  destruct reply as [|statusCode body]; [constructor|].
  destruct (negb _); [constructor|].
  destruct (JSON_parse body) as [e|parsed]; [constructor|].
  apply started_at_most_one, (calls_at_most_Request 0); [|lia].
  intros reply' st'. destruct reply'; constructor.
Qed.

(** X7. Sending a message never writes to the dictionary: not when the OAuth
    call is answered, not when the POST is, whatever the replies; and it takes
    at most two HTTP calls, so a POST that is answered with another status
    than 201 is not tried again. *)
Theorem sendMessage_reads_only spaceId' message :
  hereditarily eq (sendMessage spaceId' message)
  /\ calls_at_most 2 (sendMessage spaceId' message).
Proof.
  split; [by apply sendMessage_hereditarily|].
  apply (calls_at_most_Request 1); [|lia].
  intros reply st. apply sendMessage_started.
Qed.

Lemma searchYelp_calls zip' spaceId' :
  calls_at_most 4 (searchYelp zip' (listRestaurants_callback spaceId')).
Proof.
  apply (calls_at_most_Request 3); [|lia].
  intros reply st. cbn. unfold authenticate_callback.
  destruct reply as [|statusCode body]; [constructor|].
  destruct (negb _); [constructor|].
  destruct (JSON_parse body) as [e|parsed]; [constructor|].
  apply started_at_most_one, (calls_at_most_Request 2); [|lia].
  intros reply' st'. unfold search_callback.
  destruct reply' as [|statusCode' body']; [constructor|].
  destruct (JSON_parse body') as [e|parsed']; [constructor|].
  unfold listRestaurants_callback.
  destruct (forEach _ _) as [e|message]; [constructor|].
  apply started_at_most_one, (calls_at_most_Request 1); [|lia].
  intros reply'' st''. apply sendMessage_started.
Qed.

(** X5. A webhook call, and every callback that runs later because of it,
    leaves the entries of all other spaces as they are: only the entry of the
    space of the event is created, changed or deleted. *)
Theorem webhook_touches_own_space_only req res st :
  outcome_keeps (same_elsewhere (spaceId req)) st (processEvent req res st).2.
Proof.
  assert (Hsend : forall st' message, same_elsewhere (spaceId req) st st' ->
    outcome_keeps (same_elsewhere (spaceId req)) st
      (Return st' [sendMessage (spaceId req) message])).
  { intros st' message H. constructor; [done|].
    apply Forall_singleton, sendMessage_hereditarily, same_elsewhere_refl. }
  assert (Hnone : outcome_keeps (same_elsewhere (spaceId req)) st (Return st [])).
  { constructor; [apply same_elsewhere_refl|done]. }
  destruct (processEvent_cases req res st)
    as [[_ ->]|[[_ ->]|[[_ ->]|[[_ ->]|(_ & _ & ->)]]]].
  - done.
  - unfold checkAnnotations.
    destruct (negb _); [done|].
    destruct (JSON_parse _);
      [constructor; [apply same_elsewhere_refl|done]|].
    destruct (_ && _); [|done]. cbn [snd]. apply Hsend.
    intros other Hne. by rewrite lookup_insert_ne.
  - destruct (checkResponse_cases req res st)
      as [->|[->|(st' & entry & Hst' & He & ->)]]; [done| |].
    + apply Hsend. intros other Hne. by rewrite lookup_delete_ne.
    + destruct (listRestaurants_entry _ _ _ He) as [[_ ->]|[_ ->]].
      * apply Hsend. intros other Hne.
        rewrite lookup_alter_ne by done. by apply Hst'.
      * constructor; [done|].
        apply Forall_singleton, searchYelp_hereditarily.
  - destruct (Object_prototype_call_cases (type req) res st)
      as [[_ ->]|[_ ->]]; [|done].
    constructor; [apply same_elsewhere_refl|done].
  - done.
Qed.

(** X6. A webhook call leads to at most four HTTP calls in all, whatever the
    replies are: the longest chain is the OAuth call of the search provider,
    the search, the OAuth call of the messaging platform and the POST of the
    results.  Nothing is ever retried. *)
Theorem webhook_calls_at_most_four req res st :
  started_at_most 4 (started_of (processEvent req res st).2).
Proof.
  assert (Hsend : forall message,
    started_at_most 4 [sendMessage (spaceId req) message]).
  { intros message. apply started_at_most_one, (calls_at_most_Request 1); [|lia].
    intros reply st'. apply sendMessage_started. }
  destruct (processEvent_cases req res st)
    as [[_ ->]|[[_ ->]|[[_ ->]|[[_ ->]|(_ & _ & ->)]]]].
  - constructor.
  - unfold checkAnnotations.
    destruct (negb _); [constructor|].
    destruct (JSON_parse _); [constructor|].
    destruct (_ && _); [apply Hsend|constructor].
  - destruct (checkResponse_cases req res st)
      as [->|[->|(st' & entry & _ & He & ->)]];
      [constructor|apply Hsend|].
    destruct (listRestaurants_entry _ _ _ He) as [[_ ->]|[_ ->]];
      [apply Hsend|].
    apply started_at_most_one, searchYelp_calls.
  - destruct (Object_prototype_call_cases (type req) res st)
      as [[_ ->]|[_ ->]]; constructor.
  - constructor.
Qed.

(** X8. In every state the process reaches, an entry is at state 1 with an
    empty zip or at state 2: no other stage exists, and a zip is only ever
    held by an entry at state 2. *)
Theorem entries_well_staged s spaceId' entry :
  reachable s ->
  inMemoryState s !! spaceId' = Some entry ->
  (state entry = 1 /\ zip entry = EmptyString) \/ state entry = 2.
Proof.
  intros Hr He. apply reachable_ok in Hr as [Hst _]. by eapply Hst.
Qed.

(** X9. An OAuth call lets the process go on in one case only, a reply of
    status 200 whose body holds a token, and then it goes on as the
    continuation does; a network error, another status and a body that cannot
    be read each end the process. *)
Theorem authentication_survives_iff (k : string -> Store -> outcome) reply st :
  (forall token st', survives (k token st') <> None) ->
  (survives (callback_of (authenticateApp k) reply st) <> None
   <-> exists body parsed,
         reply = Response 200 body /\ JSON_parse body = inr parsed
         /\ callback_of (authenticateApp k) reply st
            = k (access_token parsed) st)
  /\ (survives (callback_of (authenticate k) reply st) <> None
      <-> exists body parsed,
            reply = Response 200 body /\ JSON_parse body = inr parsed
            /\ callback_of (authenticate k) reply st
               = k (access_token parsed) st).
Proof.
  intros Hk. cbn. unfold authenticateApp_callback, authenticate_callback.
  destruct reply as [|statusCode body].
  { split; (split; [done|]); by intros (? & ? & ? & _). }
  destruct (Z.eqb_spec statusCode 200) as [->|Hne]; cbn [negb].
  - destruct (JSON_parse body) as [e|parsed] eqn:Hp.
    + split; (split; [done|]); intros (? & ? & [= <-] & Hp' & _);
        by rewrite Hp in Hp'.
    + split; (split; [intros _; by eexists _, _|]); intros _; apply Hk.
  - split; (split; [done|]); by intros (? & ? & [= ? ?] & _).
Qed.

(** X10. A whole conversation brings the dictionary back to where it started.
    From a dictionary with no entry for the space: the intent annotation, a
    confirming reply, a reply with a zip, the token of the search provider and
    a search reply whose businesses all have a category, handled in this
    order, send the prompt, the zip prompt and the results, issue the search
    with the zip as location and the token as bearer, and leave the
    dictionary exactly as it was before the annotation. *)
Theorem conversation_round_trip spaceId' st res annotation annotationBody
    confirmation zip_reply token_body' (parsed_token : TokenBody)
    statusCode search_body' response :
  st !! spaceId' = None ->
  type annotation = "message-annotation-added" ->
  spaceId annotation = spaceId' ->
  annotationType annotation = "message-focus" ->
  JSON_parse (annotationPayload annotation) = inr annotationBody ->
  lens annotationBody = Some "Food" ->
  category annotationBody = Some "Request" ->
  type confirmation = "message-created" ->
  spaceId confirmation = spaceId' ->
  userId confirmation <> appId ->
  String_match (content confirmation) CONFIRMATION_REGEX = true ->
  type zip_reply = "message-created" ->
  spaceId zip_reply = spaceId' ->
  userId zip_reply <> appId ->
  content zip_reply <> EmptyString ->
  JSON_parse token_body' = inr parsed_token ->
  JSON_parse search_body' = inr response ->
  Forall (fun b => categories b <> []) (businesses response) ->
  exists st1 st2 st3 options,
    (processEvent annotation res st).2
    = Return st1 [sendMessage spaceId' PROMPT_TO_LIST]
    /\ (processEvent confirmation res st1).2
       = Return st2 [sendMessage spaceId' WHICH_ZIP]
    /\ (processEvent zip_reply res st2).2
       = Return st3 [searchYelp (content zip_reply)
                       (listRestaurants_callback spaceId')]
    /\ callback_of (searchYelp (content zip_reply)
                      (listRestaurants_callback spaceId'))
                   (Response 200 token_body') st3
       = Return st3 [Request options
                       (search_callback (listRestaurants_callback spaceId'))]
    /\ qs options
       = Some {| location := content zip_reply; term := "food"; limit := 5 |}
    /\ headers options
       = [("Authorization", "Bearer " +:+ access_token parsed_token)]
    /\ search_callback (listRestaurants_callback spaceId')
                       (Response statusCode search_body') st3
       = Return st
           [sendMessage spaceId'
              (("Here are some options:" +:+ LF +:+ LF)
               +:+ concat_lines (map bullet_line (businesses response)))].
Proof.
  intros Hnone Ha1 Ha2 Ha3 Ha4 Ha5 Ha6 Hc1 Hc2 Hc3 Hc4 Hz1 Hz2 Hz3 Hz4
         Ht Hs Hcat.
  set (e1 := {| state := 1; zip := EmptyString |}).
  set (e2 := {| state := 2; zip := EmptyString |}).
  set (e3 := {| state := 2; zip := content zip_reply |}).
  exists (<[spaceId' := e1]> st), (<[spaceId' := e2]> st),
         (<[spaceId' := e3]> st),
         (requestOptions (access_token parsed_token) (content zip_reply)).
  split; [|split; [|split; [|split; [|split; [|split]]]]].
  - rewrite processEvent_annotation by done. rewrite <- Ha2.
    by eapply checkAnnotations_food_request.
  - rewrite processEvent_message by done. rewrite <- Hc2 in *.
    rewrite (checkResponse_confirmation _ _ _ e1), Hc4;
      [|by rewrite lookup_insert_eq|done..].
    rewrite (listRestaurants_prompts _ _ e1);
      [|by rewrite lookup_insert_eq|done].
    by rewrite insert_insert_eq.
  - rewrite processEvent_message by done. rewrite <- Hz2 in *.
    rewrite (checkResponse_zip _ _ _ e2);
      [|by rewrite lookup_insert_eq|done..].
    rewrite insert_insert_eq.
    by rewrite (listRestaurants_searches _ _ e3)
      by (by rewrite ?lookup_insert_eq).
  - by destruct (searchYelp_searches (content zip_reply)
                   (listRestaurants_callback spaceId') token_body'
                   parsed_token (<[spaceId' := e3]> st) Ht) as [_ ->].
  - done.
  - done.
  - unfold search_callback, listRestaurants_callback.
    rewrite Hs, forEach_renders by done.
    by rewrite delete_insert_id.
Qed.

(** X11. Declining also brings the dictionary back: from a dictionary with no
    entry for the space, the intent annotation followed by a reply that the
    pattern does not match sends the prompt and the cancellation message and
    leaves the dictionary exactly as it was. *)
Theorem declined_conversation_round_trip spaceId' st res annotation
    annotationBody reply :
  st !! spaceId' = None ->
  type annotation = "message-annotation-added" ->
  spaceId annotation = spaceId' ->
  annotationType annotation = "message-focus" ->
  JSON_parse (annotationPayload annotation) = inr annotationBody ->
  lens annotationBody = Some "Food" ->
  category annotationBody = Some "Request" ->
  type reply = "message-created" ->
  spaceId reply = spaceId' ->
  userId reply <> appId ->
  String_match (content reply) CONFIRMATION_REGEX = false ->
  exists st1,
    (processEvent annotation res st).2
    = Return st1 [sendMessage spaceId' PROMPT_TO_LIST]
    /\ (processEvent reply res st1).2
       = Return st [sendMessage spaceId' CANCEL_REQUEST].
Proof.
  intros Hnone Ha1 Ha2 Ha3 Ha4 Ha5 Ha6 Hc1 Hc2 Hc3 Hc4.
  set (e1 := {| state := 1; zip := EmptyString |}).
  exists (<[spaceId' := e1]> st). split.
  - rewrite processEvent_annotation by done. rewrite <- Ha2.
    by eapply checkAnnotations_food_request.
  - rewrite processEvent_message by done. rewrite <- Hc2 in *.
    rewrite (checkResponse_confirmation _ _ _ e1), Hc4;
      [|by rewrite lookup_insert_eq|done..].
    by rewrite delete_insert_id.
Qed.

(** X15. A search reply with no business still ends the conversation: the
    message sent is the heading alone, and the entry of the space is
    deleted. *)
Theorem empty_results_still_sent spaceId' statusCode body response st :
  JSON_parse body = inr response ->
  businesses response = [] ->
  search_callback (listRestaurants_callback spaceId')
                  (Response statusCode body) st
  = Return (delete spaceId' st)
           [sendMessage spaceId' ("Here are some options:" +:+ LF +:+ LF)].
Proof.
  intros Hp Hb. unfold search_callback, listRestaurants_callback.
  by rewrite Hp, Hb.
Qed.

(** X16. The search client checks nothing of the search reply but that its
    body can be read.  Once the provider's OAuth call has answered 200 with a
    token, the callback of the search request gives the same outcome whatever
    the status of the reply is; on a network error, and on a body that cannot
    be read, an exception escapes it with the dictionary unchanged and nothing
    started, so the continuation never runs. *)
Theorem search_reply_unchecked zip'
    (k : SearchResponse number -> Store -> outcome)
    token_body' (parsed_token : TokenBody) st :
  JSON_parse token_body' = inr parsed_token ->
  exists options callback,
    callback_of (searchYelp zip' k) (Response 200 token_body') st
    = Return st [Request options callback]
    /\ (forall statusCode statusCode' body st',
          callback (Response statusCode body) st'
          = callback (Response statusCode' body) st')
    /\ (forall st', callback NetworkError st' = Throw SyntaxError st' [])
    /\ (forall statusCode body e st',
          JSON_parse (A := SearchResponse number) body = inl e ->
          callback (Response statusCode body) st' = Throw e st' [])
    /\ (forall statusCode body response st',
          JSON_parse body = inr response ->
          callback (Response statusCode body) st' = k response st').
Proof.
  intros Ht.
  destruct (searchYelp_searches zip' k token_body' parsed_token st Ht)
    as [_ ->].
  eexists _, _. split; [reflexivity|].
  unfold search_callback. repeat split.
  - intros statusCode body e st' ->. done.
  - intros statusCode body response st' ->. done.
Qed.

(** X14. The message the callback of [listRestaurants] sends has one line per
    business.  For a search reply whose businesses all have a category and
    hold no line feed in their name, url, first category title or printed
    rating, the callback sends one message and deletes the entry, and the
    line feeds of that message are the two of the heading and one for each
    business. *)
Theorem results_have_one_line_per_business spaceId' statusCode body response st :
  JSON_parse body = inr response ->
  Forall (fun b => categories b <> []) (businesses response) ->
  Forall single_line_fields (businesses response) ->
  exists message,
    search_callback (listRestaurants_callback spaceId')
                    (Response statusCode body) st
    = Return (delete spaceId' st) [sendMessage spaceId' message]
    /\ forEach (businesses response) ("Here are some options:" +:+ LF +:+ LF)
       = inr message
    /\ count_LF message = (2 + length (businesses response))%nat.
Proof.
  intros Hp Hc Hl. eexists. split; [|split].
  - unfold search_callback, listRestaurants_callback.
    by rewrite Hp, forEach_renders.
  - by apply forEach_renders.
  - by apply rendered_line_count.
Qed.

End App.

(** ** A concrete process *)

(** The environment of the examples. *)
Definition demo_env : process_env :=
  {| APP_ID := "app-id"; APP_SECRET := "app-secret";
     WEBHOOK_SECRET := "webhook-secret";
     YELP_ID := "yelp-id"; YELP_SECRET := "yelp-secret" |}.

(** The JSON text of an object whose values are strings. *)
Fixpoint json_members (kvs : list (string * string)) : string :=
  match kvs with
  | [] => EmptyString
  | [(k, v)] => QuoteJSONString k +:+ ":" +:+ QuoteJSONString v
  | (k, v) :: rest =>
      QuoteJSONString k +:+ ":" +:+ QuoteJSONString v +:+ "," +:+ json_members rest
  end.
Definition json_object (kvs : list (string * string)) : string :=
  "{" +:+ json_members kvs +:+ "}".

Definition food_request_payload : string :=
  json_object [("lens", "Food"); ("category", "Request")].
Definition food_question_payload : string :=
  json_object [("lens", "Food"); ("category", "Question")].
Definition token_body : string := json_object [("access_token", "jwt-1")].
Definition search_body : string := "two businesses".
Definition search_body_no_category : string := "a business with no category".

(** [JSON.parse] on the texts of the examples; any other text is rejected. *)
#[local] Instance demo_parse_annotation : FromJSON AnnotationBody := fun s =>
  if String.eqb s food_request_payload
  then inr {| lens := Some "Food"; category := Some "Request" |}
  else if String.eqb s food_question_payload
  then inr {| lens := Some "Food"; category := Some "Question" |}
  else inl SyntaxError.

#[local] Instance demo_parse_token : FromJSON TokenBody := fun s =>
  if String.eqb s token_body then inr {| access_token := "jwt-1" |}
  else inl SyntaxError.

Definition trattoria : Business Z :=
  {| name := "Trattoria"; business_url := "https://yelp.example/trattoria";
     categories := [{| title := "Italian" |}; {| title := "Pizza" |}];
     rating := 4 |}.
Definition noodle_bar : Business Z :=
  {| name := "Noodle Bar"; business_url := "https://yelp.example/noodle-bar";
     categories := [{| title := "Ramen" |}];
     rating := 5 |}.
Definition food_truck : Business Z :=
  {| name := "Food Truck"; business_url := "https://yelp.example/food-truck";
     categories := [];
     rating := 3 |}.

#[local] Instance demo_parse_search : FromJSON (SearchResponse Z) := fun s =>
  if String.eqb s search_body
  then inr {| businesses := [trattoria; noodle_bar] |}
  else if String.eqb s search_body_no_category
  then inr {| businesses := [trattoria; food_truck] |}
  else inl SyntaxError.

(** The events of the examples, all for the space [space-1]. *)
Definition annotation_event (annotationType' payload : string) : Body :=
  {| type := "message-annotation-added"; spaceId := "space-1";
     userId := "user-1"; content := EmptyString;
     annotationType := annotationType'; annotationPayload := payload;
     challenge := EmptyString |}.

Definition message_event (userId' content' : string) : Body :=
  {| type := "message-created"; spaceId := "space-1";
     userId := userId'; content := content';
     annotationType := EmptyString; annotationPayload := EmptyString;
     challenge := EmptyString |}.

Definition verification_event (challenge' : string) : Body :=
  {| type := "verification"; spaceId := EmptyString;
     userId := EmptyString; content := EmptyString;
     annotationType := EmptyString; annotationPayload := EmptyString;
     challenge := challenge' |}.

(** The outcome of a webhook call in the concrete process. *)
Definition demo_outcome (req : Body) (st : Store) : outcome :=
  (processEvent Z pretty demo_env req res_new st).2.

(** The dictionary with [space-1] at the given stage. *)
Definition at_stage (state' : Z) (zip' : string) : Store :=
  <["space-1" := {| state := state'; zip := zip' |}]> ∅.

(** The process after the intent annotation: the entry is at state 1 and the
    prompt is on its way. *)
Definition awaiting_confirmation : System :=
  {| inMemoryState := at_stage 1 EmptyString;
     pending := [sendMessage demo_env "space-1" PROMPT_TO_LIST] |}.

Lemma awaiting_confirmation_reachable :
  reachable Z pretty demo_env awaiting_confirmation.
Proof.
  apply rtc_once.
  apply (step_webhook Z pretty demo_env (boot)
           (annotation_event "message-focus" food_request_payload)
           (at_stage 1 EmptyString)
           [sendMessage demo_env "space-1" PROMPT_TO_LIST]).
  reflexivity.
Qed.

(** ** The claims on the concrete process *)

(** C2 at two inputs: a message of the bot while the space is at state 2, and
    a message of a user for a space with no entry. *)
Lemma bot_or_idle_message_ignored_witness :
  demo_outcome (message_event "app-id" "10001") (at_stage 2 EmptyString)
  = Return (at_stage 2 EmptyString) []
  /\ demo_outcome (message_event "user-1" "yes") ∅ = Return ∅ [].
Proof.
  split; apply bot_or_idle_message_ignored;
    [reflexivity | left; reflexivity | reflexivity | right; reflexivity].
Defined.

(** C3 at two inputs: the Food/Request annotation for a fresh space, and a
    Food/Question annotation. *)
Lemma intent_annotation_creates_entry_witness :
  (demo_outcome (annotation_event "message-focus" food_request_payload) ∅
   = Return (at_stage 1 EmptyString)
            [sendMessage demo_env "space-1" PROMPT_TO_LIST]
   /\ PROMPT_TO_LIST = "Would you like to search for restaurants?")
  /\ store_of (demo_outcome
                 (annotation_event "message-focus" food_question_payload) ∅) ∅
     = ∅
  /\ started_of (demo_outcome
                   (annotation_event "message-focus" food_question_payload) ∅)
     = [].
Proof.
  split.
  - apply (proj1 (intent_annotation_creates_entry Z pretty demo_env
                    (annotation_event "message-focus" food_request_payload)
                    res_new ∅ eq_refl)
                 {| lens := Some "Food"; category := Some "Request" |});
      reflexivity.
  - apply (proj2 (intent_annotation_creates_entry Z pretty demo_env
                    (annotation_event "message-focus" food_question_payload)
                    res_new ∅ eq_refl)).
    intros (_ & annotationBody & Hp & _ & Hc).
    vm_compute in Hp. injection Hp as <-. discriminate Hc.
Defined.

(** C4 at the input of the claim: the space is at state 2 with a zip. *)
Lemma intent_annotation_overwrites_witness :
  exists st',
    demo_outcome (annotation_event "message-focus" food_request_payload)
                 (at_stage 2 "10001")
    = Return st' [sendMessage demo_env "space-1" PROMPT_TO_LIST]
    /\ st' !! "space-1" = Some {| state := 1; zip := EmptyString |}
    /\ forall other, other <> "space-1" ->
                     st' !! other = at_stage 2 "10001" !! other.
Proof.
  apply (intent_annotation_overwrites Z pretty demo_env
           (annotation_event "message-focus" food_request_payload) res_new
           (at_stage 2 "10001") {| state := 2; zip := "10001" |}
           {| lens := Some "Food"; category := Some "Request" |});
    reflexivity.
Defined.

(** C1 as stated fails: a reply of the bot itself at state 1 is ignored, be it
    "yes", which the claim has advance the conversation, or "no", which the
    claim has cancel it; the entry stays at state 1 and nothing is sent. *)
Lemma confirmation_reply_counterexample :
  RegExp_full_match CONFIRMATION_REGEX "yes" = true
  /\ demo_outcome (message_event "app-id" "yes") (at_stage 1 EmptyString)
     = Return (at_stage 1 EmptyString) []
  /\ String_match "no" CONFIRMATION_REGEX = false
  /\ demo_outcome (message_event "app-id" "no") (at_stage 1 EmptyString)
     = Return (at_stage 1 EmptyString) []
  /\ at_stage 1 EmptyString !! "space-1"
     = Some {| state := 1; zip := EmptyString |}.
Proof. repeat split; reflexivity. Qed.

(** The pattern is searched, not anchored: "maybe" is none of the replies it
    spells out, but holds a y, and a user who answers "maybe" is taken to
    have confirmed; so is the bot's own prompt, were it not for the guard. *)
Example maybe_taken_as_confirmation :
  RegExp_full_match CONFIRMATION_REGEX "maybe" = false
  /\ String_match "maybe" CONFIRMATION_REGEX = true
  /\ demo_outcome (message_event "user-1" "maybe") (at_stage 1 EmptyString)
     = Return (at_stage 2 EmptyString)
              [sendMessage demo_env "space-1" WHICH_ZIP]
  /\ String_match PROMPT_TO_LIST CONFIRMATION_REGEX = true.
Proof. repeat split; reflexivity. Qed.

(** The amended C1 at "yes" and at "no". *)
Lemma confirmation_reply_witness :
  demo_outcome (message_event "user-1" "yes") (at_stage 1 EmptyString)
  = Return (<["space-1" := {| state := 2; zip := EmptyString |}]>
              (at_stage 1 EmptyString))
           [sendMessage demo_env "space-1" WHICH_ZIP]
  /\ demo_outcome (message_event "user-1" "no") (at_stage 1 EmptyString)
     = Return (delete "space-1" (at_stage 1 EmptyString))
              [sendMessage demo_env "space-1" CANCEL_REQUEST].
Proof.
  split.
  - apply (proj1 (confirmation_reply Z pretty demo_env awaiting_confirmation
                    (message_event "user-1" "yes") res_new
                    {| state := 1; zip := EmptyString |}
                    awaiting_confirmation_reachable eq_refl eq_refl eq_refl
                    ltac:(discriminate))).
    reflexivity.
  - apply (proj2 (confirmation_reply Z pretty demo_env awaiting_confirmation
                    (message_event "user-1" "no") res_new
                    {| state := 1; zip := EmptyString |}
                    awaiting_confirmation_reachable eq_refl eq_refl eq_refl
                    ltac:(discriminate))).
    reflexivity.
Defined.

(** C5 as stated fails: a message of the bot at state 2 is not stored and
    starts nothing; and empty content starts no search, only the OAuth
    call of the messaging platform that precedes the zip prompt. *)
Lemma zip_reply_searches_counterexample :
  demo_outcome (message_event "app-id" "10001") (at_stage 2 EmptyString)
  = Return (at_stage 2 EmptyString) []
  /\ zip <$> at_stage 2 EmptyString !! "space-1" <> Some "10001"
  /\ map options_of
         (started_of (demo_outcome (message_event "user-1" EmptyString)
                                   (at_stage 2 EmptyString)))
     = [authenticationOptions demo_env]
  /\ authenticationOptions demo_env <> yelp_authenticationOptions demo_env.
Proof. repeat split; try reflexivity; discriminate. Qed.

(** The amended C5 at the content "10001". *)
Lemma zip_reply_searches_witness :
  demo_outcome (message_event "user-1" "10001") (at_stage 2 EmptyString)
  = Return (<["space-1" := {| state := 2; zip := "10001" |}]>
              (at_stage 2 EmptyString))
           [searchYelp Z demo_env "10001"
              (listRestaurants_callback Z pretty demo_env "space-1")]
  /\ exists options callback,
       callback_of (searchYelp Z demo_env "10001"
                      (listRestaurants_callback Z pretty demo_env "space-1"))
                   (Response 200 token_body) ∅
       = Return ∅ [Request options callback]
       /\ method options = "GET"
       /\ url options = "https://api.yelp.com/v3/businesses/search"
       /\ qs options = Some {| location := "10001"; term := "food"; limit := 5 |}.
Proof.
  destruct (zip_reply_searches Z pretty demo_env
              (message_event "user-1" "10001") res_new
              (at_stage 2 EmptyString) {| state := 2; zip := EmptyString |}
              eq_refl eq_refl eq_refl ltac:(discriminate) ltac:(discriminate))
    as [H1 H2].
  split; [exact H1|].
  exact (H2 token_body {| access_token := "jwt-1" |} ∅ eq_refl).
Defined.

(** C9 as stated fails: an empty message of the bot at state 2 is ignored; no
    prompt is sent again. *)
Lemma empty_zip_reprompts_counterexample :
  demo_outcome (message_event "app-id" EmptyString) (at_stage 2 EmptyString)
  = Return (at_stage 2 EmptyString) []
  /\ started_of (demo_outcome (message_event "app-id" EmptyString)
                              (at_stage 2 EmptyString))
     <> [sendMessage demo_env "space-1" WHICH_ZIP].
Proof. split; [reflexivity|discriminate]. Qed.

(** The amended C9 at an empty message of a user. *)
Lemma empty_zip_reprompts_witness :
  demo_outcome (message_event "user-1" EmptyString) (at_stage 2 EmptyString)
  = Return (<["space-1" := {| state := 2; zip := EmptyString |}]>
              (at_stage 2 EmptyString))
           [sendMessage demo_env "space-1" WHICH_ZIP]
  /\ WHICH_ZIP = "Which zipcode should we search in?".
Proof.
  apply (empty_zip_reprompts Z pretty demo_env
           (message_event "user-1" EmptyString) res_new
           (at_stage 2 EmptyString) {| state := 2; zip := EmptyString |});
    first [reflexivity | discriminate].
Defined.

(** C6 as stated fails: a reply with a business that has no category sends no
    message and leaves the entry in the dictionary. *)
Lemma results_rendered_and_entry_removed_counterexample :
  search_callback Z (listRestaurants_callback Z pretty demo_env "space-1")
                  (Response 200 search_body_no_category) (at_stage 2 "10001")
  = Throw TypeError (at_stage 2 "10001") []
  /\ at_stage 2 "10001" !! "space-1"
     = Some {| state := 2; zip := "10001" |}.
Proof. split; reflexivity. Qed.

(** The message rendered for the two businesses of [search_body]. *)
Definition two_options : string :=
  "Here are some options:" +:+ LF +:+ LF
  +:+ "* [Trattoria](https://yelp.example/trattoria) - Italian (Rated: 4 stars)"
  +:+ LF
  +:+ "* [Noodle Bar](https://yelp.example/noodle-bar) - Ramen (Rated: 5 stars)"
  +:+ LF.

Example two_options_rendered :
  ("Here are some options:" +:+ LF +:+ LF)
  +:+ concat_lines (map (bullet_line Z pretty) [trattoria; noodle_bar])
  = two_options.
Proof. reflexivity. Qed.

(** The amended C6 at a reply with two businesses. *)
Lemma results_rendered_and_entry_removed_witness :
  search_callback Z (listRestaurants_callback Z pretty demo_env "space-1")
                  (Response 200 search_body) (at_stage 2 "10001")
  = Return (delete "space-1" (at_stage 2 "10001"))
           [sendMessage demo_env "space-1"
              (("Here are some options:" +:+ LF +:+ LF)
               +:+ concat_lines
                     (map (bullet_line Z pretty) [trattoria; noodle_bar]))]
  /\ length (map (bullet_line Z pretty) [trattoria; noodle_bar]) = 2%nat
  /\ forall req res,
       type req = "message-created" -> spaceId req = "space-1" ->
       (processEvent Z pretty demo_env req res
          (delete "space-1" (at_stage 2 "10001"))).2
       = Return (delete "space-1" (at_stage 2 "10001")) [].
Proof.
  apply (results_rendered_and_entry_removed Z pretty demo_env "space-1" 200
           search_body {| businesses := [trattoria; noodle_bar] |}
           (at_stage 2 "10001") eq_refl).
  repeat constructor; discriminate.
Defined.

(** C10 at the two replies of the examples. *)
Lemma rendering_needs_categories_witness :
  (exists message,
      listRestaurants_callback Z pretty demo_env "space-1"
        {| businesses := [trattoria; noodle_bar] |} (at_stage 2 "10001")
      = Return (delete "space-1" (at_stage 2 "10001"))
               [sendMessage demo_env "space-1" message])
  /\ listRestaurants_callback Z pretty demo_env "space-1"
       {| businesses := [food_truck; trattoria] |} (at_stage 2 "10001")
     = Throw TypeError (at_stage 2 "10001") [].
Proof.
  split.
  - apply (proj1 (proj1 (rendering_needs_categories Z pretty demo_env "space-1"
                           {| businesses := [trattoria; noodle_bar] |}
                           (at_stage 2 "10001")))).
    repeat constructor; discriminate.
  - apply (proj2 (proj2 (rendering_needs_categories Z pretty demo_env "space-1"
                           {| businesses := [food_truck; trattoria] |}
                           (at_stage 2 "10001")))).
    reflexivity.
Defined.

(** C7 at the challenge [abc123]. *)
Lemma verification_token_witness :
  get_header "X-OUTBOUND-TOKEN"
    (processEvent Z pretty demo_env (verification_event "abc123") res_new ∅).1
  = Some (createHmac_sha256_hex "webhook-secret"
            (JSON_stringify {| response := "abc123" |}))
  /\ res_body
       (processEvent Z pretty demo_env (verification_event "abc123") res_new ∅).1
     = JSON_stringify {| response := "abc123" |}
  /\ (processEvent Z pretty demo_env (verification_event "abc123") res_new ∅).2
     = Return ∅ [].
Proof.
  exact (verification_token Z pretty demo_env (verification_event "abc123") ∅
           eq_refl).
Defined.

(** The token and the body of that reply, written out. *)
Example verification_token_value :
  get_header "X-OUTBOUND-TOKEN"
    (processEvent Z pretty demo_env (verification_event "abc123") res_new ∅).1
  = Some "600222b050db34004760bcc44e1079661957818573fe9710d704b19850a49047"
  /\ res_body
       (processEvent Z pretty demo_env (verification_event "abc123") res_new ∅).1
     = json_object [("response", "abc123")].
Proof. split; vm_compute; reflexivity. Qed.

(** C8 at a 401 reply, and at a 200 reply with a token. *)
Lemma authentication_failure_exits_witness :
  (callback_of (authenticateApp demo_env (fun _ st => Return st []))
               (Response 401 EmptyString) ∅ = Exit 1
   /\ callback_of (authenticate demo_env (fun _ st => Return st []))
                  (Response 401 EmptyString) ∅ = Exit 1)
  /\ exists body, Response 200 token_body = Response 200 body.
Proof.
  split.
  - apply (proj1 (authentication_failure_exits demo_env
                    (fun _ st => Return st []) (Response 401 EmptyString) ∅)
                 401 EmptyString eq_refl).
    discriminate.
  - apply (proj1 (proj2 (authentication_failure_exits demo_env
                           (fun _ st => Return st [])
                           (Response 200 token_body) ∅))
                 (fun _ _ => Exit 0)).
    cbn. discriminate.
Defined.

(** ** Further properties: the pattern, the token and the verification body *)

(** The letters k and y, in either case. *)
Definition confirming_letter (c : ascii) : Prop :=
  c = "k"%char \/ c = "K"%char \/ c = "y"%char \/ c = "Y"%char.

Lemma is_k_or_y_spec c : is_k_or_y c = true <-> confirming_letter c.
Proof.
  unfold confirming_letter.
  destruct c as [[] [] [] [] [] [] [] []]; vm_compute;
    (split; [intros H; try discriminate H; auto 6
            |intros [H|[H|[H|H]]]; try discriminate H; reflexivity]).
Qed.

Lemma has_k_or_y_spec s :
  has_k_or_y s = true
  <-> exists a c b, s = a +:+ String c b /\ confirming_letter c.
Proof.
  induction s as [|x s IH].
  - split; [done|]. intros (a & c & b & H & _). by destruct a.
  - cbn [has_k_or_y]. rewrite orb_true_iff, IH, is_k_or_y_spec. split.
    + intros [Hx|(a & c & b & -> & Hc)].
      * by exists EmptyString, x, s.
      * by exists (String x a), c, b.
    + intros (a & c & b & H & Hc). destruct a as [|y a].
      * injection H as -> ->. by left.
      * injection H as -> ->. right. by exists a, c, b.
Qed.

(** The pattern without its optional groups: [/k|y/i]. *)
Definition K_OR_Y : RegExp :=
  {| pattern := Alt (Char "k") (Char "y"); ignoreCase_flag := true |}.

(** X1. The confirmation pattern is searched, not anchored: it matches exactly
    the contents that hold a k or a y somewhere, in either case, so that its
    optional groups change nothing and it accepts what [/k|y/i] accepts. *)
Theorem confirmation_pattern_is_k_or_y s :
  (String_match s CONFIRMATION_REGEX = true
   <-> exists a c b, s = a +:+ String c b /\ confirming_letter c)
  /\ String_match s CONFIRMATION_REGEX = String_match s K_OR_Y.
Proof.
  split.
  - rewrite confirmation_search. apply has_k_or_y_spec.
  - rewrite confirmation_search. unfold String_match.
    induction s as [|c s IH]; [reflexivity|].
    cbn [RegExp_exec has_k_or_y]. rewrite <- IH.
    f_equal. cbn. unfold is_k_or_y.
    change (Canonicalize "k") with "K"%char.
    change (Canonicalize "y") with "Y"%char.
    by rewrite !andb_true_r.
Qed.

(** The digits of [digest('hex')]. *)
Definition is_lower_hex (c : ascii) : bool :=
  existsb (Ascii.eqb c) (list_ascii_of_string "0123456789abcdef").

Fixpoint string_forallb (f : ascii -> bool) (s : string) : bool :=
  match s with
  | EmptyString => true
  | String c s' => f c && string_forallb f s'
  end.

Lemma hex_digit_lower n : is_lower_hex (hex_digit n) = true.
Proof.
  unfold hex_digit. generalize (Z.to_nat n) as k. intros k.
  do 16 (destruct k as [|k]; [reflexivity|]). reflexivity.
Qed.

Lemma hex_lower bs : string_forallb is_lower_hex (hex bs) = true.
Proof.
  induction bs as [|b bs IH]; [reflexivity|].
  change (hex (b :: bs))
    with (String (hex_digit (b / 16)) (String (hex_digit (b mod 16)) (hex bs))).
  cbn [string_forallb]. by rewrite !hex_digit_lower, IH.
Qed.

(** X12. The verification reply always carries the header X-OUTBOUND-TOKEN, and
    its value is 64 lower-case hexadecimal digits, whatever the secret and the
    challenge are. *)
Theorem verification_token_format env req :
  exists token,
    get_header "X-OUTBOUND-TOKEN" (verifyCallback env req res_new) = Some token
    /\ String.length token = 64%nat
    /\ string_forallb is_lower_hex token = true.
Proof.
  eexists. split; [reflexivity|]. split.
  - apply createHmac_sha256_hex_length.
  - apply hex_lower.
Qed.

(** Reading a quoted JSON string back, up to its closing quote: the decoded
    text and what follows the quote. *)
Definition hex_value (c : ascii) : option Z :=
  let n := code c in
  if (48 <=? n) && (n <=? 57) then Some (n - 48)
  else if (97 <=? n) && (n <=? 102) then Some (n - 87)
  else None.

Definition unescape_char (c : ascii) : option ascii :=
  let n := code c in
  if n =? 98 then Some "008"%char
  else if n =? 116 then Some "009"%char
  else if n =? 110 then Some "010"%char
  else if n =? 102 then Some "012"%char
  else if n =? 114 then Some "013"%char
  else if n =? 34 then Some DQUOTE
  else if n =? 92 then Some "\"%char
  else None.

Fixpoint read_json_string (s : string) : option (string * string) :=
  match s with
  | EmptyString => None
  | String c s' =>
      if Ascii.eqb c DQUOTE then Some (EmptyString, s')
      else if Ascii.eqb c "\" then
        match s' with
        | EmptyString => None
        | String d s'' =>
            if Ascii.eqb d "u" then
              match s'' with
              | String _ (String _ (String h (String l r))) =>
                  match hex_value h, hex_value l, read_json_string r with
                  | Some x, Some y, Some (t, rest) =>
                      Some (String (ascii_of_nat (Z.to_nat (16 * x + y))) t, rest)
                  | _, _, _ => None
                  end
              | _ => None
              end
            else
              match unescape_char d, read_json_string s'' with
              | Some x, Some (t, rest) => Some (String x t, rest)
              | _, _ => None
              end
        end
      else
        match read_json_string s' with
        | Some (t, rest) => Some (String c t, rest)
        | None => None
        end
  end.

Lemma read_json_escape c tail :
  read_json_string (json_escape c +:+ tail)
  = match read_json_string tail with
    | Some (t, rest) => Some (String c t, rest)
    | None => None
    end.
Proof.
  destruct c as [[] [] [] [] [] [] [] []]; reflexivity.
Qed.

Lemma read_json_escape_all s rest :
  read_json_string (json_escape_all s +:+ String DQUOTE rest) = Some (s, rest).
Proof.
  induction s as [|c s IH]; [reflexivity|].
  cbn [json_escape_all]. by rewrite append_assoc, read_json_escape, IH.
Qed.

(** The challenge read back from the text [JSON.stringify] gives. *)
Definition challenge_of_body (body : string) : option string :=
  match body with
  | String _ (String _ s) =>
      match read_json_string s with
      | Some (_, String _ (String _ s')) => fst <$> read_json_string s'
      | _ => None
      end
  | _ => None
  end.

Lemma challenge_of_body_stringify b :
  challenge_of_body (JSON_stringify b) = Some (response b).
Proof.
  unfold JSON_stringify, QuoteJSONString.
  change (challenge_of_body _)
    with (fst <$> read_json_string
            ((json_escape_all (response b) +:+ String DQUOTE EmptyString)
             +:+ "}")).
  rewrite append_assoc.
  change (String DQUOTE EmptyString +:+ "}") with (String DQUOTE "}").
  by rewrite read_json_escape_all.
Qed.

(** X13. The body of the verification reply determines the challenge: the
    challenge can be read back from it, so two verification events answered
    with the same body carried the same challenge. *)
Theorem verification_body_determines_challenge env req :
  challenge_of_body (res_body (verifyCallback env req res_new))
  = Some (challenge req)
  /\ forall env' req',
       res_body (verifyCallback env req res_new)
       = res_body (verifyCallback env' req' res_new) ->
       challenge req = challenge req'.
Proof.
  assert (H : forall e r,
    challenge_of_body (res_body (verifyCallback e r res_new))
    = Some (challenge r)).
  { intros e r. apply (challenge_of_body_stringify {| response := challenge r |}). }
  split; [apply H|].
  intros env' req' Heq. pose proof (H env req) as H1.
  rewrite Heq, H in H1. by injection H1.
Qed.

(** ** The further properties on the concrete process *)

(** The invariant at the state after the intent annotation. *)
Lemma entries_well_staged_witness :
  (state {| state := 1; zip := EmptyString |} = 1
   /\ zip {| state := 1; zip := EmptyString |} = EmptyString)
  \/ state {| state := 1; zip := EmptyString |} = 2.
Proof.
  exact (entries_well_staged Z pretty demo_env awaiting_confirmation "space-1"
           {| state := 1; zip := EmptyString |}
           awaiting_confirmation_reachable eq_refl).
Defined.

(** The OAuth call of the messaging platform answered 200 with a token. *)
Lemma authentication_survives_iff_witness :
  exists body (parsed : TokenBody),
    Response 200 token_body = Response 200 body
    /\ JSON_parse body = inr parsed
    /\ callback_of (authenticateApp demo_env (fun _ st => Return st []))
                   (Response 200 token_body) ∅
       = Return ∅ [].
Proof.
  apply (proj1 (proj1 (authentication_survives_iff demo_env
                         (fun _ st => Return st [])
                         (Response 200 token_body) ∅
                         ltac:(intros; discriminate)))).
  discriminate.
Defined.

(** A whole conversation in [space-1], beside an entry of another space. *)
Definition elsewhere : Store :=
  <["space-2" := {| state := 2; zip := "94105" |}]> ∅.

Lemma conversation_round_trip_witness :
  exists st1 st2 st3 options,
    demo_outcome (annotation_event "message-focus" food_request_payload)
                 elsewhere
    = Return st1 [sendMessage demo_env "space-1" PROMPT_TO_LIST]
    /\ demo_outcome (message_event "user-1" "Ok") st1
       = Return st2 [sendMessage demo_env "space-1" WHICH_ZIP]
    /\ demo_outcome (message_event "user-1" "10001") st2
       = Return st3 [searchYelp Z demo_env "10001"
                       (listRestaurants_callback Z pretty demo_env "space-1")]
    /\ callback_of (searchYelp Z demo_env "10001"
                      (listRestaurants_callback Z pretty demo_env "space-1"))
                   (Response 200 token_body) st3
       = Return st3
           [Request options
              (search_callback Z
                 (listRestaurants_callback Z pretty demo_env "space-1"))]
    /\ qs options = Some {| location := "10001"; term := "food"; limit := 5 |}
    /\ headers options = [("Authorization", "Bearer " +:+ "jwt-1")]
    /\ search_callback Z (listRestaurants_callback Z pretty demo_env "space-1")
                       (Response 200 search_body) st3
       = Return elsewhere
           [sendMessage demo_env "space-1"
              (("Here are some options:" +:+ LF +:+ LF)
               +:+ concat_lines
                     (map (bullet_line Z pretty) [trattoria; noodle_bar]))].
Proof.
  apply (conversation_round_trip Z pretty demo_env "space-1" elsewhere res_new
           (annotation_event "message-focus" food_request_payload)
           {| lens := Some "Food"; category := Some "Request" |}
           (message_event "user-1" "Ok") (message_event "user-1" "10001")
           token_body {| access_token := "jwt-1" |} 200 search_body
           {| businesses := [trattoria; noodle_bar] |});
    try reflexivity; try discriminate.
  repeat constructor; discriminate.
Defined.

Lemma declined_conversation_round_trip_witness :
  exists st1,
    demo_outcome (annotation_event "message-focus" food_request_payload)
                 elsewhere
    = Return st1 [sendMessage demo_env "space-1" PROMPT_TO_LIST]
    /\ demo_outcome (message_event "user-1" "no") st1
       = Return elsewhere [sendMessage demo_env "space-1" CANCEL_REQUEST].
Proof.
  apply (declined_conversation_round_trip Z pretty demo_env "space-1" elsewhere
           res_new (annotation_event "message-focus" food_request_payload)
           {| lens := Some "Food"; category := Some "Request" |}
           (message_event "user-1" "no"));
    try reflexivity; discriminate.
Defined.

(** The results for the two businesses of the examples have four lines. *)
Lemma results_have_one_line_per_business_witness :
  exists message,
    search_callback Z (listRestaurants_callback Z pretty demo_env "space-1")
                    (Response 200 search_body) (at_stage 2 "10001")
    = Return (delete "space-1" (at_stage 2 "10001"))
             [sendMessage demo_env "space-1" message]
    /\ forEach Z pretty [trattoria; noodle_bar]
               ("Here are some options:" +:+ LF +:+ LF)
       = inr message
    /\ count_LF message = 4%nat.
Proof.
  apply (results_have_one_line_per_business Z pretty demo_env "space-1" 200
           search_body {| businesses := [trattoria; noodle_bar] |}
           (at_stage 2 "10001") eq_refl).
  - repeat constructor; discriminate.
  - repeat constructor.
Defined.

(** An event of a given type, with nothing else in its body. *)
Definition typed_event (type' : string) : Body :=
  {| type := type'; spaceId := "space-1"; userId := "user-1";
     content := EmptyString; annotationType := EmptyString;
     annotationPayload := EmptyString; challenge := EmptyString |}.

(** A type the platform may add one day is answered with 200; the type
    [constructor] is not answered by the handler. *)
Lemma webhook_always_acknowledged_witness :
  (res_statusCode
     (processEvent Z pretty demo_env (typed_event "message-deleted") res_new ∅).1
   = 200
   /\ finished
        (processEvent Z pretty demo_env (typed_event "message-deleted") res_new ∅).1
      = true)
  /\ finished
       (processEvent Z pretty demo_env (typed_event "constructor") res_new ∅).1
     = false.
Proof.
  split.
  - apply (proj1 (webhook_always_acknowledged Z pretty demo_env
                    (typed_event "message-deleted") ∅)).
    intros H. apply (bool_decide_eq_true_2 (_ ∈ Object_prototype_members)) in H.
    vm_compute in H. discriminate H.
  - apply (proj2 (webhook_always_acknowledged Z pretty demo_env
                    (typed_event "constructor") ∅)).
    apply (bool_decide_unpack _). by vm_compute.
Defined.


(** A [JSON.parse] that reads every search body as a reply with no
    business. *)
Definition parse_no_business : FromJSON (SearchResponse Z) :=
  fun _ => inr {| businesses := [] |}.

Lemma empty_results_still_sent_witness :
  @search_callback Z parse_no_business
    (listRestaurants_callback Z pretty demo_env "space-1")
    (Response 200 "no business") (at_stage 2 "10001")
  = Return (delete "space-1" (at_stage 2 "10001"))
           [sendMessage demo_env "space-1"
              ("Here are some options:" +:+ LF +:+ LF)].
Proof.
  apply (@empty_results_still_sent Z pretty demo_parse_token parse_no_business
           demo_env "space-1" 200 "no business" {| businesses := [] |}
           (at_stage 2 "10001"));
    reflexivity.
Defined.

Lemma search_reply_unchecked_witness :
  exists options callback,
    callback_of (searchYelp Z demo_env "10001"
                   (listRestaurants_callback Z pretty demo_env "space-1"))
                (Response 200 token_body) ∅
    = Return ∅ [Request options callback]
    /\ (forall statusCode statusCode' body st',
          callback (Response statusCode body) st'
          = callback (Response statusCode' body) st')
    /\ (forall st', callback NetworkError st' = Throw SyntaxError st' [])
    /\ (forall statusCode body e st',
          JSON_parse (A := SearchResponse Z) body = inl e ->
          callback (Response statusCode body) st' = Throw e st' [])
    /\ (forall statusCode body response st',
          JSON_parse body = inr response ->
          callback (Response statusCode body) st'
          = listRestaurants_callback Z pretty demo_env "space-1" response st').
Proof.
  exact (search_reply_unchecked Z demo_env "10001"
           (listRestaurants_callback Z pretty demo_env "space-1")
           token_body {| access_token := "jwt-1" |} ∅ eq_refl).
Defined.
